(** * Chunked file upload (frontend/client/src/utils/chunkedUpload.js)

    A shallow embedding of the three exported functions of the upload
    utility, [createFileChunks], [uploadFileInChunks] and
    [abortChunkedUpload], together with the properties the design document
    states about them.

    Modelling conventions.
    - Byte counts and offsets ([file.size], [chunkSize], [start], [end]) are
      JavaScript Numbers holding integers; they are modelled as [Z], which is
      exact below 2^53.
    - The [while] loop of [createFileChunks] is run with fuel: [None] means
      that the fuel ran out before the loop condition became false.
    - [Math.round((uploadedChunks / totalChunks) * 100)] is evaluated in IEEE
      754 binary64, using the executable specification [SpecFloat].
    - The Numbers of JSON values are binary64 values as well; the conversion
      to a string that [FormData.append] applies to the upload id follows
      ToString and Number::toString of ECMA-262, and throws where they do.
    - The asynchronous functions are modelled in a small monad that threads
      the chronological log of observable events (requests sent, responses
      settled, callbacks invoked) and a normal or abrupt completion; the
      network and the caller's callbacks are arbitrary functions of the
      history observed so far. *)

From Stdlib Require Import ZArith List String Ascii Bool Lia Arith.
From Stdlib Require Import DecimalString.
From Stdlib Require DecimalNat DecimalFacts.
From Stdlib Require Import Floats.SpecFloat.
Import ListNotations.

Local Open Scope Z_scope.
Local Open Scope list_scope.

(** ** Files and blobs *)

(** The part of the File interface the utility reads. *)
Record File := mkFile {
  name : string;
  size : Z;
  type : string
}.

(** A Blob obtained by slicing a file: the byte range
    [blob_start, blob_end) of the parent file. *)
Record Blob := mkBlob {
  blob_start : Z;
  blob_end : Z
}.

Definition blob_size (b : Blob) : Z := blob_end b - blob_start b.

(** [Blob.slice(start, end)] of the File API: negative offsets count from
    the end, offsets are clamped to [0, size], and the span is never
    negative. *)
Definition relative_offset (sz x : Z) : Z :=
  if x <? 0 then Z.max (sz + x) 0 else Z.min x sz.

Definition slice (file : File) (start end_ : Z) : Blob :=
  let relativeStart := relative_offset (size file) start in
  let relativeEnd := relative_offset (size file) end_ in
  let span := Z.max (relativeEnd - relativeStart) 0 in
  mkBlob relativeStart (relativeStart + span).

(** ** createFileChunks *)

Definition DEFAULT_CHUNK_SIZE : Z := 1024 * 1024.

(** State of the loop: the [chunks] array and the [start] offset. *)
Definition ChunkLoopState : Type := (list Blob * Z)%type.

(** [start < file.size] *)
Definition chunk_loop_cond (file : File) (st : ChunkLoopState) : bool :=
  snd st <? size file.

(** One execution of the loop body. *)
Definition chunk_loop_body (file : File) (chunkSize : Z) (st : ChunkLoopState)
  : ChunkLoopState :=
  let '(chunks, start) := st in
  let end_ := Z.min (start + chunkSize) (size file) in
  let chunk := slice file start end_ in
  (chunks ++ [chunk], end_).

(** The [while] loop; each unit of fuel pays for one evaluation of the
    loop condition. *)
Fixpoint chunk_loop (fuel : nat) (file : File) (chunkSize : Z)
  (st : ChunkLoopState) : option (list Blob) :=
  match fuel with
  | O => None
  | S fuel' =>
      if chunk_loop_cond file st
      then chunk_loop fuel' file chunkSize (chunk_loop_body file chunkSize st)
      else Some (fst st)
  end.

Definition createFileChunks (fuel : nat) (file : File) (chunkSize : Z)
  : option (list Blob) :=
  chunk_loop fuel file chunkSize ([], 0).

(** ** The partition the design document describes *)

(** ceil(S / C) for C > 0. *)
Definition ceil_div (S C : Z) : Z := (S + C - 1) / C.

(** The [i]-th range of the partition of [0, S) in steps of [C]. *)
Definition nth_range (S C : Z) (i : nat) : Blob :=
  mkBlob (Z.of_nat i * C) (Z.min ((Z.of_nat i + 1) * C) S).

Definition expected_chunks (S C : Z) : list Blob :=
  map (nth_range S C) (seq 0 (Z.to_nat (ceil_div S C))).

(** Consecutive ranges leading from offset [from] to offset [to]: each one
    begins where the previous one ended. *)
Fixpoint contiguous (from to : Z) (l : list Blob) : Prop :=
  match l with
  | [] => from = to
  | b :: l' => blob_start b = from /\ contiguous (blob_end b) to l'
  end.

(** Every range is non-empty; with contiguity this makes the ranges pairwise
    disjoint. *)
Definition nonempty_range (b : Blob) : Prop := blob_start b < blob_end b.

Definition in_range (x : Z) (b : Blob) : Prop := blob_start b <= x < blob_end b.

(** Two ranges overlap when they share a byte offset. *)
Definition overlap (a b : Blob) : Prop := exists x, in_range x a /\ in_range x b.

(** All chunks but the last have size [C]; the last has a size in (0, C]. *)
Fixpoint full_except_last (C : Z) (l : list Blob) : Prop :=
  match l with
  | [] => True
  | [b] => 0 < blob_size b <= C
  | b :: l' => blob_size b = C /\ full_except_last C l'
  end.

(** ** JavaScript values, exceptions and Numbers *)

(** Numbers are IEEE 754 binary64 values. *)
Definition prec : Z := 53.
Definition emax : Z := 1024.
Definition Number : Type := spec_float.

Definition Number_of_Z (z : Z) : Number := binary_normalize prec emax z 0 false.
Definition Number_of_nat (n : nat) : Number := Number_of_Z (Z.of_nat n).
Definition Number_div (x y : Number) : Number := SFdiv prec emax x y.
Definition Number_mul (x y : Number) : Number := SFmul prec emax x y.

(** [Math.round]: the closest integer, ties towards +infinity; NaN, the
    infinities and the zeros are returned unchanged, and a negative argument
    that rounds to zero gives -0. *)
Definition Math_round (x : Number) : Number :=
  match x with
  | S754_finite s m e =>
      if 0 <=? e then x
      else
        let d := 2 ^ (- e) in
        let n := if s then Z.neg m else Z.pos m in
        binary_normalize prec emax ((2 * n + d) / (2 * d)) 0 s
  | _ => x
  end.

(** [Math.round((uploadedChunks / totalChunks) * 100)] *)
Definition progress_percent (uploadedChunks totalChunks : nat) : Number :=
  Math_round
    (Number_mul
       (Number_div (Number_of_nat uploadedChunks) (Number_of_nat totalChunks))
       (Number_of_Z 100)).

(** JSON-like values: what [response.json()] yields and what the caller
    passes as [metadata]. *)
#[local] Set Warnings "-register-all".
Inductive Value :=
| VUndefined
| VNull
| VBool (b : bool)
| VNumber (x : Number)
| VString (s : string)
| VArray (items : list Value)
| VObject (props : list (string * Value)).
#[local] Set Warnings "register-all".

(** What a [throw] carries: an error object (its constructor name and
    message) or any other value. *)
Inductive Exn :=
| ErrorObject (ctor : string) (message : string)
| ThrownValue (v : Value).

(** [new Error(message)] *)
Definition new_Error (message : string) : Exn := ErrorObject "Error" message.

Fixpoint lookup_prop {A : Type} (k : string) (props : list (string * A)) : option A :=
  match props with
  | [] => None
  | (k', v) :: rest => if String.eqb k' k then Some v else lookup_prop k rest
  end.

(** [{...props, k: v}]: an existing key keeps its place and takes the new
    value, a new key goes last. *)
Fixpoint set_prop {A : Type} (k : string) (v : A) (props : list (string * A))
  : list (string * A) :=
  match props with
  | [] => [(k, v)]
  | (k', v') :: rest =>
      if String.eqb k' k then (k, v) :: rest else (k', v') :: set_prop k v rest
  end.

(** [const { k } = v]: a TypeError on [undefined] and [null], the property
    (or [undefined]) otherwise. *)
Definition destructure (k : string) (v : Value) : Exn + Value :=
  match v with
  | VUndefined | VNull =>
      inl (ErrorObject "TypeError" "Cannot destructure property")
  | VObject props =>
      inr (match lookup_prop k props with Some x => x | None => VUndefined end)
  | _ => inr VUndefined
  end.

Definition string_of_nat (n : nat) : string :=
  NilZero.string_of_uint (Nat.to_uint n).

Definition string_of_Z (z : Z) : string :=
  NilZero.string_of_int (Z.to_int z).

(** *** Number::toString, radix 10 (ECMA-262, 6.1.6.1.20) *)

(** A positive finite Number is [m * 2^e] with [m] of 53 bits, or of fewer
    bits and [e = -1074].  The reals that round to it lie between the
    midpoints to its two neighbours, the midpoints included when [m] is
    even.  The record holds the Number and the two midpoints as integer
    multiples of a common unit [1 / r_den]. *)
Record Rounding := mkRounding {
  r_value : Z;
  r_lower : Z;
  r_upper : Z;
  r_den : Z;
  r_inclusive : bool
}.

Definition rounding_interval (m : positive) (e : Z) : Rounding :=
  let emin := 3 - emax - prec in
  let below := if (Z.pos m =? 2 ^ (prec - 1)) && (emin <? e) then 1 else 2 in
  let num := 2 ^ Z.max (e - 2) 0 in
  mkRounding (4 * Z.pos m * num) ((4 * Z.pos m - below) * num)
    ((4 * Z.pos m + 2) * num) (2 ^ Z.max (2 - e) 0) (Z.even (Z.pos m)).

(** [x < 10^n], for [x = r_value / r_den]. *)
Definition below_power_of_ten (r : Rounding) (n : Z) : bool :=
  r_value r * 10 ^ Z.max (- n) 0 <? 10 ^ Z.max n 0 * r_den r.

(** The [n] with [10^(n-1) <= x < 10^n], searched from a first guess. *)
Fixpoint decimal_position (fuel : nat) (r : Rounding) (n : Z) : Z :=
  match fuel with
  | O => n
  | S fuel' =>
      if below_power_of_ten r (n - 1) then decimal_position fuel' r (n - 1)
      else if below_power_of_ten r n then n
      else decimal_position fuel' r (n + 1)
  end.

(** The integer closest to [a / b], the even one of two. *)
Definition nearest (a b : Z) : Z :=
  let q := a / b in
  let r := a mod b in
  if 2 * r <? b then q
  else if b <? 2 * r then q + 1
  else if Z.even q then q else q + 1.

(** Among the integers [s] of [k] digits for which [s * 10^j] rounds to the
    Number, the one for which [s * 10^j] is closest to it, with its
    distance; [10^p] clears the denominator of [10^j]. *)
Definition candidate (r : Rounding) (k j p : Z) : option (Z * Z * Z) :=
  let w := 10 ^ (j + p) * r_den r in
  let x := r_value r * 10 ^ p in
  let lo := r_lower r * 10 ^ p in
  let hi := r_upper r * 10 ^ p in
  let s_lo := if r_inclusive r then (lo + w - 1) / w else lo / w + 1 in
  let s_hi := if r_inclusive r then hi / w else (hi - 1) / w in
  let s_min := Z.max s_lo (10 ^ (k - 1)) in
  let s_max := Z.min s_hi (10 ^ k - 1) in
  if s_min <=? s_max
  then let s := Z.max s_min (Z.min (nearest x w) s_max) in
       Some (s, j + k, Z.abs (s * w - x))
  else None.

Definition closer (a b : option (Z * Z * Z)) : option (Z * Z * Z) :=
  match a, b with
  | Some (_, _, da), Some (_, _, db) => if db <? da then b else a
  | Some _, None => a
  | None, _ => b
  end.

(** [n], [k] and [s] with [k] as small as possible, [10^(k-1) <= s < 10^k]
    and [s * 10^(n-k)] rounding to the Number; of several [s], the one
    closest to the Number. *)
Fixpoint shortest_digits (fuel : nat) (r : Rounding) (n0 k : Z) : Z * Z :=
  match fuel with
  | O => (0, 0)
  | S fuel' =>
      let j := n0 - 1 - k in
      let p := Z.max (- j) 0 in
      match closer (closer (candidate r k j p) (candidate r k (j + 1) p))
              (candidate r k (j + 2) p) with
      | Some (s, n, _) => (s, n)
      | None => shortest_digits fuel' r n0 (k + 1)
      end
  end.

Fixpoint zeros (n : nat) : string :=
  match n with
  | O => EmptyString
  | S n' => String "0" (zeros n')
  end.

(** The string for the digits [s] and the position [n] of the decimal
    point. *)
Definition format_digits (s n : Z) : string :=
  let digits := string_of_Z s in
  let k := Z.of_nat (String.length digits) in
  if (k <=? n) && (n <=? 21)
  then (digits ++ zeros (Z.to_nat (n - k)))%string
  else if (0 <? n) && (n <=? 21)
  then (substring 0 (Z.to_nat n) digits ++ "."
        ++ substring (Z.to_nat n) (Z.to_nat (k - n)) digits)%string
  else if (-6 <? n) && (n <=? 0)
  then ("0." ++ zeros (Z.to_nat (- n)) ++ digits)%string
  else
    let exponent :=
      ((if (n - 1 <? 0)%Z then "e-" else "e+")
       ++ string_of_Z (Z.abs (n - 1)))%string in
    if k =? 1
    then (digits ++ exponent)%string
    else (substring 0 1 digits ++ "."
          ++ substring 1 (Z.to_nat (k - 1)) digits ++ exponent)%string.

Definition Number_toString (x : Number) : string :=
  let canonical :=
    match x with
    | S754_finite s m e =>
        binary_normalize prec emax (if s then Z.neg m else Z.pos m) e s
    | _ => x
    end in
  match canonical with
  | S754_nan => "NaN"%string
  | S754_zero _ => "0"%string
  | S754_infinity false => "Infinity"%string
  | S754_infinity true => "-Infinity"%string
  | S754_finite s m e =>
      let r := rounding_interval m e in
      let guess := (Z.log2 (r_value r) - Z.log2 (r_den r)) * 30103 / 100000 in
      let (digits, n) :=
        shortest_digits 17 r (decimal_position 700 r guess) 1 in
      ((if s then "-"%string else EmptyString) ++ format_digits digits n)%string
  end.

(** ToString, as applied by [FormData.append] to a value that is not a
    Blob: Number::toString for a Number; for an array, the elements joined
    by commas ([undefined] and [null] elements giving the empty string);
    for an object, "[object Object]", unless the object has an own property
    [toString]: a parsed JSON value is not callable, the inherited
    [valueOf] returns the object itself, and the conversion throws a
    TypeError. *)
Fixpoint to_string (v : Value) : Exn + string :=
  match v with
  | VUndefined => inr "undefined"%string
  | VNull => inr "null"%string
  | VBool true => inr "true"%string
  | VBool false => inr "false"%string
  | VNumber x => inr (Number_toString x)
  | VString s => inr s
  | VArray items =>
      let element v :=
        match v with
        | VUndefined | VNull => inr EmptyString
        | _ => to_string v
        end in
      (fix join (l : list Value) : Exn + string :=
         match l with
         | [] => inr EmptyString
         | v :: rest =>
             match element v, rest with
             | inl e, _ => inl e
             | inr s, [] => inr s
             | inr s, _ :: _ =>
                 match join rest with
                 | inl e => inl e
                 | inr t => inr (s ++ "," ++ t)%string
                 end
             end
         end) items
  | VObject props =>
      match lookup_prop "toString" props with
      | Some _ =>
          inl (ErrorObject "TypeError" "Cannot convert object to primitive value")
      | None => inr "[object Object]"%string
      end
  end.

(** The text of a FormData entry made from [v]; the entry is made only when
    ToString returns. *)
Definition form_text (v : Value) : string :=
  match to_string v with
  | inr s => s
  | inl _ => EmptyString
  end.

(** ** Requests, responses and the event log *)

Definition Headers : Type := list (string * string).

(** An entry of a FormData body: a Blob, or a value converted to a string. *)
Inductive FormEntry :=
| FormBlob (b : Blob)
| FormText (s : string).

(** A request body: [JSON.stringify(v)], or a FormData object. *)
Inductive Body :=
| JsonBody (v : Value)
| FormBody (entries : list (string * FormEntry)).

(** [fetch(url, { method, headers, body })] *)
Record Request := mkRequest {
  req_url : string;
  req_method : string;
  req_headers : Headers;
  req_body : Body
}.

(** The part of a Response the utility reads; [json] is what awaiting
    [response.json()] gives: a rejection or the parsed body. *)
Record Response := mkResponse {
  ok : bool;
  statusText : string;
  json : Exn + Value
}.

(** What awaiting [fetch] gives: a rejection (transport failure) or a
    response. *)
Definition FetchResult : Type := (Exn + Response)%type.

(** The argument of the progress callback. *)
Record ProgressRecord := mkProgress {
  uploadId : Value;
  totalChunks : nat;
  uploadedChunks : nat;
  progress : Number
}.

(** Observable events, in the order in which they happen. *)
Inductive Event :=
| EvFetch (req : Request)            (* fetch called: the request is sent *)
| EvSettled (res : FetchResult)      (* the awaited fetch promise settled *)
| EvProgress (p : ProgressRecord)    (* onProgress(p) called *)
| EvError (e : Exn)                  (* onError(e) called *)
| EvSuccess (v : Value)              (* onSuccess(v) called *)
| EvConsoleError (label : string) (e : Exn).   (* console.error(label, e) *)

Definition Log : Type := list Event.

(** The network: the outcome of a request, given everything that has
    happened so far. *)
Definition Network : Type := Log -> Request -> FetchResult.

(** A caller-supplied callback: given the history and its argument it
    returns ([None]) or throws ([Some e]). *)
Definition Callback (A : Type) : Type := Log -> A -> option Exn.

(** The default callback [() => {}]. *)
Definition noop {A : Type} : Callback A := fun _ _ => None.

(** ** The monad of asynchronous code *)

Inductive Completion (A : Type) :=
| Normal (a : A)
| Abrupt (e : Exn).
Arguments Normal {A} a.
Arguments Abrupt {A} e.

Definition Async (A : Type) : Type := Log -> Completion A * Log.

Definition ret {A : Type} (a : A) : Async A := fun log => (Normal a, log).

Definition throw {A : Type} (e : Exn) : Async A := fun log => (Abrupt e, log).

Definition bind {A B : Type} (m : Async A) (k : A -> Async B) : Async B :=
  fun log =>
    match m log with
    | (Normal a, log') => k a log'
    | (Abrupt e, log') => (Abrupt e, log')
    end.

(** [try { body } catch (error) { handler }] *)
Definition try_catch {A : Type} (body : Async A) (handler : Exn -> Async A)
  : Async A :=
  fun log =>
    match body log with
    | (Normal a, log') => (Normal a, log')
    | (Abrupt e, log') => handler e log'
    end.

Declare Scope async_scope.
Delimit Scope async_scope with async.
Notation "x <- m ;; k" := (bind m (fun x => k))
  (at level 61, m at next level, right associativity) : async_scope.
Notation "m ;;; k" := (bind m (fun _ => k))
  (at level 61, right associativity) : async_scope.

(** Awaiting a settled promise. *)
Definition await {A : Type} (r : Exn + A) : Async A :=
  fun log =>
    match r with
    | inl e => (Abrupt e, log)
    | inr a => (Normal a, log)
    end.

(** [await fetch(...)]: the request is sent, and the function is suspended
    until the promise settles. *)
Definition await_fetch (fetch : Network) (req : Request) : Async Response :=
  fun log =>
    let sent := log ++ [EvFetch req] in
    let res := fetch sent req in
    await res (sent ++ [EvSettled res]).

(** Calling a callback, recorded as event [ev]. *)
Definition call {A : Type} (cb : Callback A) (ev : Event) (arg : A) : Async unit :=
  fun log =>
    let log' := log ++ [ev] in
    match cb log' arg with
    | None => (Normal tt, log')
    | Some e => (Abrupt e, log')
    end.

(** [for (let i = from; i < n; i++) body], with the mutable variables of the
    enclosing scope passed as [st]; [remaining] is [n - from]. *)
Fixpoint for_loop_from {St : Type} (remaining : nat) (i n : nat)
  (body : nat -> St -> Async St) (st : St) : Async St :=
  match remaining with
  | O => ret st
  | S remaining' =>
      if (i <? n)%nat
      then bind (body i st) (for_loop_from remaining' (S i) n body)
      else ret st
  end.

Definition for_loop {St : Type} (from n : nat) (body : nat -> St -> Async St)
  (st : St) : Async St :=
  for_loop_from (n - from) from n body st.

(** ** uploadFileInChunks *)

(** [{ ...headers, 'Content-Type': 'application/json' }] *)
Definition json_headers (headers : Headers) : Headers :=
  set_prop "Content-Type"%string "application/json"%string headers.

(** The request to [`${url}/init`]. *)
Definition init_request (url : string) (file : File) (headers : Headers)
  (metadata : Value) (totalChunks : nat) : Request :=
  mkRequest (url ++ "/init")%string "POST"%string (json_headers headers)
    (JsonBody (VObject
       [("filename"%string, VString (name file));
        ("fileSize"%string, VNumber (Number_of_Z (size file)));
        ("fileType"%string, VString (type file));
        ("totalChunks"%string, VNumber (Number_of_nat totalChunks));
        ("metadata"%string, metadata)])).

(** The FormData of chunk [i]: [chunks[i]], the index and the upload id, the
    last two converted to strings by [append]. *)
Definition chunk_form (chunks : list Blob) (uploadId : Value) (i : nat)
  : list (string * FormEntry) :=
  [("chunk"%string,
    match nth_error chunks i with
    | Some chunk => FormBlob chunk
    | None => FormText "undefined"%string
    end);
   ("chunkIndex"%string, FormText (string_of_nat i));
   ("uploadId"%string, FormText (form_text uploadId))].

(** The request to [`${url}/chunk`]. *)
Definition chunk_request (url : string) (headers : Headers)
  (chunks : list Blob) (uploadId : Value) (i : nat) : Request :=
  mkRequest (url ++ "/chunk")%string "POST"%string headers
    (FormBody (chunk_form chunks uploadId i)).

(** The request to [`${url}/complete`]. *)
Definition complete_request (url : string) (headers : Headers)
  (uploadId : Value) : Request :=
  mkRequest (url ++ "/complete")%string "POST"%string (json_headers headers)
    (JsonBody (VObject [("uploadId"%string, uploadId)])).

Definition init_error_message (st : string) : string :=
  ("Failed to initialize upload: " ++ st)%string.

Definition chunk_error_message (i : nat) (st : string) : string :=
  ("Failed to upload chunk " ++ string_of_nat i ++ ": " ++ st)%string.

Definition complete_error_message (st : string) : string :=
  ("Failed to complete upload: " ++ st)%string.

(** The record passed to [onProgress]. *)
Definition progress_record (uploadId : Value) (totalChunks uploadedChunks : nat)
  : ProgressRecord :=
  mkProgress uploadId totalChunks uploadedChunks
    (progress_percent uploadedChunks totalChunks).

Local Open Scope async_scope.

(** The body of the [for] loop, for index [i]; the loop carries the counter
    [uploadedChunks]. *)
Definition upload_chunk (fetch : Network) (url : string) (headers : Headers)
  (chunks : list Blob) (uploadId : Value)
  (onProgress : Callback ProgressRecord) (i : nat) (uploadedChunks : nat)
  : Async nat :=
  let totalChunks := List.length chunks in
  (* formData.append('uploadId', uploadId) throws when ToString does *)
  _ <- await (to_string uploadId) ;;
  chunkResponse <- await_fetch fetch (chunk_request url headers chunks uploadId i) ;;
  if negb (ok chunkResponse)
  then throw (new_Error (chunk_error_message i (statusText chunkResponse)))
  else
    let uploadedChunks := S uploadedChunks in
    let p := progress_record uploadId totalChunks uploadedChunks in
    (call onProgress (EvProgress p) p ;;; ret uploadedChunks).

(** The statements of the [try] block after [createFileChunks]. *)
Definition upload_try (fetch : Network) (url : string) (file : File)
  (headers : Headers) (metadata : Value)
  (onProgress : Callback ProgressRecord) (onSuccess : Callback Value)
  (chunks : list Blob) : Async Value :=
  let totalChunks := List.length chunks in
  initResponse <- await_fetch fetch
                    (init_request url file headers metadata totalChunks) ;;
  if negb (ok initResponse)
  then throw (new_Error (init_error_message (statusText initResponse)))
  else
    (initBody <- await (json initResponse) ;;
     uploadId <- await (destructure "uploadId" initBody) ;;
     _ <- for_loop 0 totalChunks
            (upload_chunk fetch url headers chunks uploadId onProgress) 0%nat ;;
     completeResponse <- await_fetch fetch
                           (complete_request url headers uploadId) ;;
     if negb (ok completeResponse)
     then throw (new_Error (complete_error_message (statusText completeResponse)))
     else
       (result <- await (json completeResponse) ;;
        call onSuccess (EvSuccess result) result ;;;
        ret result)).

(** [catch (error) { onError(error); throw error; }] *)
Definition upload_catch (onError : Callback Exn) (error : Exn) : Async Value :=
  call onError (EvError error) error ;;; throw error.

(** The whole function, started on an empty history.  [createFileChunks]
    neither throws nor produces events, so it is run first; [None] means its
    loop did not finish within [fuel]. *)
Definition uploadFileInChunks (fetch : Network) (fuel : nat)
  (url : string) (file : File) (headers : Headers) (metadata : Value)
  (onProgress : Callback ProgressRecord) (onError : Callback Exn)
  (onSuccess : Callback Value) (chunkSize : Z)
  : option (Completion Value * Log) :=
  match createFileChunks fuel file chunkSize with
  | None => None
  | Some chunks =>
      Some (try_catch
              (upload_try fetch url file headers metadata onProgress onSuccess chunks)
              (upload_catch onError) [])
  end.

(** ** abortChunkedUpload *)

(** The request to [`${url}/abort`]. *)
Definition abort_request (url : string) (headers : Headers) (uploadId : Value)
  : Request :=
  mkRequest (url ++ "/abort")%string "POST"%string (json_headers headers)
    (JsonBody (VObject [("uploadId"%string, uploadId)])).

Definition abort_error_message (st : string) : string :=
  ("Failed to abort upload: " ++ st)%string.

Definition console_error (label : string) (e : Exn) : Async unit :=
  fun log => (Normal tt, log ++ [EvConsoleError label e]).

Definition abortChunkedUpload (fetch : Network) (url : string)
  (uploadId : Value) (headers : Headers) : Async Value :=
  try_catch
    (response <- await_fetch fetch (abort_request url headers uploadId) ;;
     if negb (ok response)
     then throw (new_Error (abort_error_message (statusText response)))
     else await (json response))
    (fun error =>
       console_error "Error aborting upload:" error ;;; throw error).

(** ** Reading the event log *)

Definition is_ok (res : FetchResult) : bool :=
  match res with
  | inr r => ok r
  | inl _ => false
  end.

(** The requests of a log, each paired with the result its promise settled
    with, in the order in which they were sent. *)
Fixpoint exchanges (log : Log) : list (Request * FetchResult) :=
  match log with
  | [] => []
  | EvFetch req :: rest =>
      match rest with
      | EvSettled res :: _ => (req, res) :: exchanges rest
      | _ => exchanges rest
      end
  | _ :: rest => exchanges rest
  end.

(** The requests sent, whether settled or not. *)
Fixpoint sent_requests (log : Log) : list Request :=
  match log with
  | [] => []
  | EvFetch req :: rest => req :: sent_requests rest
  | _ :: rest => sent_requests rest
  end.

(** The arguments of the successive calls of [onProgress], [onError] and
    [onSuccess]. *)
Fixpoint progress_reports (log : Log) : list ProgressRecord :=
  match log with
  | [] => []
  | EvProgress p :: rest => p :: progress_reports rest
  | _ :: rest => progress_reports rest
  end.

Fixpoint errors_reported (log : Log) : list Exn :=
  match log with
  | [] => []
  | EvError e :: rest => e :: errors_reported rest
  | _ :: rest => errors_reported rest
  end.

Fixpoint successes_reported (log : Log) : list Value :=
  match log with
  | [] => []
  | EvSuccess v :: rest => v :: successes_reported rest
  | _ :: rest => successes_reported rest
  end.

(** Requests addressed to [`${url}${suffix}`]. *)
Definition to_endpoint (url suffix : string) (req : Request) : bool :=
  String.eqb (req_url req) (url ++ suffix)%string.

Definition chunk_requests (url : string) (log : Log) : list Request :=
  filter (to_endpoint url "/chunk") (sent_requests log).

(** The chunk requests that were acknowledged with a success response. *)
Definition acked_chunks (url : string) (log : Log) : list (Request * FetchResult) :=
  filter (fun x => to_endpoint url "/chunk" (fst x) && is_ok (snd x)) (exchanges log).

(** No request is sent while another one is pending, and nothing settles
    unless a request is pending; [pending] tells whether a request is in
    flight when the log starts. *)
Fixpoint serial (pending : bool) (log : Log) : bool :=
  match log with
  | [] => true
  | EvFetch _ :: rest => negb pending && serial true rest
  | EvSettled _ :: rest => pending && serial false rest
  | _ :: rest => serial pending rest
  end.

(** The number of requests in flight at the end of a log. *)
Fixpoint in_flight (log : Log) : Z :=
  match log with
  | [] => 0
  | EvFetch _ :: rest => in_flight rest + 1
  | EvSettled _ :: rest => in_flight rest - 1
  | _ :: rest => in_flight rest
  end.

(** The events of an acknowledged chunk [i]: the request, its success
    response [r], and the progress callback. *)
Definition ack_events (url : string) (headers : Headers) (chunks : list Blob)
  (uploadId : Value) (i : nat) (r : Response) : Log :=
  [EvFetch (chunk_request url headers chunks uploadId i);
   EvSettled (inr r);
   EvProgress (progress_record uploadId (List.length chunks) (S i))].

(** The events of the consecutive chunks [i], [i + 1], ... acknowledged with
    the responses [acks]. *)
Fixpoint acked_events (url : string) (headers : Headers) (chunks : list Blob)
  (uploadId : Value) (i : nat) (acks : list Response) : Log :=
  match acks with
  | [] => []
  | r :: rest =>
      ack_events url headers chunks uploadId i r
      ++ acked_events url headers chunks uploadId (S i) rest
  end.

(** ** The shape of a run of uploadFileInChunks *)

(** What the statements between the init request and the loop make of the
    settled init promise: the upload id, or the exception thrown. *)
Definition init_outcome (res : FetchResult) : Exn + Value :=
  match res with
  | inl e => inl e
  | inr r =>
      if ok r
      then match json r with
           | inl e => inl e
           | inr body => destructure "uploadId" body
           end
      else inl (new_Error (init_error_message (statusText r)))
  end.

(** What the statements after the complete request make of its settled
    promise: the parsed result, or the exception thrown. *)
Definition complete_outcome (res : FetchResult) : Exn + Value :=
  match res with
  | inl e => inl e
  | inr r =>
      if ok r
      then json r
      else inl (new_Error (complete_error_message (statusText r)))
  end.

(** How the [for] loop can end once the chunks [0 .. j - 1] have been
    acknowledged: its completion [c] and the events [tail] that follow the
    acknowledged chunks. *)
Definition loop_end (url : string) (headers : Headers) (chunks : list Blob)
  (uploadId : Value) (onProgress : Callback ProgressRecord)
  (j : nat) (c : Completion nat) (tail : Log) : Prop :=
  (* every chunk was sent and acknowledged *)
  (c = Normal (List.length chunks) /\ tail = [] /\ j = List.length chunks)
  \/
  (* the progress callback of the last acknowledged chunk threw, or the
     upload id could not be converted to a string *)
  (exists e, c = Abrupt e /\ (j <= List.length chunks)%nat /\
     tail = [] /\
     ((exists h p, onProgress h p = Some e) \/ to_string uploadId = inl e))
  \/
  (* the request for chunk [j] was rejected by the transport *)
  (exists e, c = Abrupt e /\ (j < List.length chunks)%nat /\
     tail = [EvFetch (chunk_request url headers chunks uploadId j);
             EvSettled (inl e)])
  \/
  (* the request for chunk [j] got a response that is not ok *)
  (exists r, ok r = false /\ (j < List.length chunks)%nat /\
     c = Abrupt (new_Error (chunk_error_message j (statusText r))) /\
     tail = [EvFetch (chunk_request url headers chunks uploadId j);
             EvSettled (inr r)]).

(** The completions and logs of the [try] block. *)
Inductive TryTrace (fetch : Network) (url : string) (file : File)
  (headers : Headers) (metadata : Value)
  (onProgress : Callback ProgressRecord) (onSuccess : Callback Value)
  (chunks : list Blob) : Completion Value -> Log -> Prop :=
| TT_init_failed (res0 : FetchResult) (e : Exn) :
    let init := init_request url file headers metadata (List.length chunks) in
    res0 = fetch [EvFetch init] init ->
    init_outcome res0 = inl e ->
    TryTrace fetch url file headers metadata onProgress onSuccess chunks
      (Abrupt e) [EvFetch init; EvSettled res0]
| TT_chunk_failed (res0 : FetchResult) (uid : Value) (acks : list Response)
    (tail : Log) (e : Exn) :
    let init := init_request url file headers metadata (List.length chunks) in
    res0 = fetch [EvFetch init] init ->
    init_outcome res0 = inr uid ->
    Forall (fun r => ok r = true) acks ->
    loop_end url headers chunks uid onProgress (List.length acks) (Abrupt e) tail ->
    TryTrace fetch url file headers metadata onProgress onSuccess chunks
      (Abrupt e)
      (EvFetch init :: EvSettled res0
         :: acked_events url headers chunks uid 0 acks ++ tail)
| TT_complete_failed (res0 : FetchResult) (uid : Value) (acks : list Response)
    (rc : FetchResult) (e : Exn) :
    let init := init_request url file headers metadata (List.length chunks) in
    let complete := complete_request url headers uid in
    res0 = fetch [EvFetch init] init ->
    init_outcome res0 = inr uid ->
    Forall (fun r => ok r = true) acks ->
    List.length acks = List.length chunks ->
    rc = fetch (EvFetch init :: EvSettled res0
                  :: acked_events url headers chunks uid 0 acks
                  ++ [EvFetch complete]) complete ->
    complete_outcome rc = inl e ->
    TryTrace fetch url file headers metadata onProgress onSuccess chunks
      (Abrupt e)
      (EvFetch init :: EvSettled res0
         :: acked_events url headers chunks uid 0 acks
         ++ [EvFetch complete; EvSettled rc])
| TT_completed (res0 : FetchResult) (uid : Value) (acks : list Response)
    (rc : FetchResult) (v : Value) (log : Log) :
    let init := init_request url file headers metadata (List.length chunks) in
    let complete := complete_request url headers uid in
    res0 = fetch [EvFetch init] init ->
    init_outcome res0 = inr uid ->
    Forall (fun r => ok r = true) acks ->
    List.length acks = List.length chunks ->
    rc = fetch (EvFetch init :: EvSettled res0
                  :: acked_events url headers chunks uid 0 acks
                  ++ [EvFetch complete]) complete ->
    complete_outcome rc = inr v ->
    log = EvFetch init :: EvSettled res0
            :: acked_events url headers chunks uid 0 acks
            ++ [EvFetch complete; EvSettled rc; EvSuccess v] ->
    TryTrace fetch url file headers metadata onProgress onSuccess chunks
      (match onSuccess log v with
       | None => Normal v
       | Some e => Abrupt e
       end)
      log.

(** What the [catch] clause makes of the completion and log of the [try]
    block. *)
Definition catch_result (onError : Callback Exn)
  (c : Completion Value) (log : Log) : Completion Value * Log :=
  match c with
  | Normal v => (Normal v, log)
  | Abrupt e =>
      let log' := log ++ [EvError e] in
      (match onError log' e with
       | None => Abrupt e
       | Some e' => Abrupt e'
       end, log')
  end.

(** ** Auxiliary definitions *)

(** The reports before the last one carry a percentage different from 100. *)
Definition before_last_below_100 (total : nat) : bool :=
  forallb
    (fun k => negb (SFeqb (progress_percent k total) (Number_of_Z 100)))
    (seq 1 (total - 1)).

(** The characters of a string are all different from [ch]. *)
Fixpoint without_char (ch : ascii) (s : string) : Prop :=
  match s with
  | EmptyString => True
  | String a s' => a <> ch /\ without_char ch s'
  end.

(** ** Sample inputs and networks *)

(** A file of 2.5 MiB. *)
Definition sample_file : File :=
  mkFile "report.pdf" 2621440 "application/pdf".

(** A file of 1000 MiB. *)
Definition large_file : File :=
  mkFile "backup.tar" 1048576000 "application/x-tar".

Definition sample_url : string := "/api/upload".

Definition sample_headers : Headers :=
  [("Authorization"%string, "Bearer token"%string)].

Definition ok_response : Response :=
  mkResponse true "OK" (inr (VObject [("uploadId"%string, VString "upload-1")])).

Definition error_response : Response :=
  mkResponse false "Internal Server Error"
    (inl (ErrorObject "SyntaxError" "Unexpected end of JSON input")).

(** A server that accepts every request. *)
Definition always_ok : Network := fun _ _ => inr ok_response.

(** A server that rejects every request. *)
Definition always_failing : Network := fun _ _ => inr error_response.

(** No connection: every fetch is rejected. *)
Definition offline : Network :=
  fun _ _ => inl (ErrorObject "TypeError" "Failed to fetch").

(** A server that rejects the third request it receives (the request for
    chunk 1) and accepts the others. *)
Definition failing_second_chunk : Network :=
  fun log _ =>
    if (List.length (sent_requests log) =? 3)%nat
    then inr error_response
    else inr ok_response.

(** The result of a run, when it finished. *)
Definition completion_of (run : option (Completion Value * Log)) : Completion Value :=
  match run with
  | Some (c, _) => c
  | None => Abrupt (ErrorObject "RangeError" "out of fuel")
  end.

Definition log_of (run : option (Completion Value * Log)) : Log :=
  match run with
  | Some (_, log) => log
  | None => []
  end.

Definition sample_upload (fetch : Network) : option (Completion Value * Log) :=
  uploadFileInChunks fetch 4 sample_url sample_file sample_headers (VObject [])
    noop noop noop DEFAULT_CHUNK_SIZE.

Definition large_upload : option (Completion Value * Log) :=
  uploadFileInChunks always_ok 1001 sample_url large_file sample_headers
    (VObject []) noop noop noop DEFAULT_CHUNK_SIZE.


(** ** Further definitions: file contents and more sample environments *)

(** The bytes of a blob sliced from a file with the given content. *)
Definition blob_bytes (content : list Byte.byte) (b : Blob) : list Byte.byte :=
  firstn (Z.to_nat (blob_end b - blob_start b))
    (skipn (Z.to_nat (blob_start b)) content).

(** The number of bytes of a list of blobs. *)
Definition total_size (chunks : list Blob) : Z :=
  fold_right Z.add 0 (map blob_size chunks).

(** An empty file. *)
Definition empty_file : File := mkFile "empty.txt" 0 "text/plain".

(** No connection for the [k]-th request, the others are accepted. *)
Definition dropping_request (k : nat) : Network :=
  fun log _ =>
    if (List.length (sent_requests log) =? k)%nat
    then inl (ErrorObject "TypeError" "Failed to fetch")
    else inr ok_response.

(** A server that rejects the [k]-th request and accepts the others. *)
Definition rejecting_request (k : nat) : Network :=
  fun log _ =>
    if (List.length (sent_requests log) =? k)%nat
    then inr error_response
    else inr ok_response.

(** A server that answers the first request with an ok response of the
    given body, and accepts the others. *)
Definition answering_init_with (body : Exn + Value) : Network :=
  fun log _ =>
    if (List.length (sent_requests log) =? 1)%nat
    then inr (mkResponse true "OK" body)
    else inr ok_response.

(** A callback that throws. *)
Definition callback_error : Exn := ErrorObject "Error" "callback failed".

Definition throwing {A : Type} : Callback A := fun _ _ => Some callback_error.

(** A run of the sample upload with the given callbacks. *)
Definition sample_upload_with (fetch : Network)
  (onProgress : Callback ProgressRecord) (onError : Callback Exn)
  (onSuccess : Callback Value) : option (Completion Value * Log) :=
  uploadFileInChunks fetch 4 sample_url sample_file sample_headers (VObject [])
    onProgress onError onSuccess DEFAULT_CHUNK_SIZE.

Definition sample_content : list Byte.byte :=
  [Byte.x68; Byte.x65; Byte.x6c; Byte.x6c; Byte.x6f; Byte.x20; Byte.x77].

(** The upload of an empty file to a server that accepts every request. *)
Definition empty_upload : option (Completion Value * Log) :=
  uploadFileInChunks always_ok 1 sample_url empty_file sample_headers
    (VObject []) noop noop noop DEFAULT_CHUNK_SIZE.

(** An init response body whose upload id is the Number 42. *)
Definition numeric_id_body : Value :=
  VObject [("uploadId"%string, VNumber (Number_of_Z 42))].

(** An init response body whose upload id is an object that ToString cannot
    convert: the body parsed from [{"uploadId": {"toString": null}}]. *)
Definition unconvertible_id : Value := VObject [("toString"%string, VNull)].

Definition unconvertible_id_body : Value :=
  VObject [("uploadId"%string, unconvertible_id)].
(** * Properties of createFileChunks *)

Section ChunkProducer.

Variable file : File.
Variable C : Z.
Hypothesis C_pos : 0 < C.
Hypothesis size_nonneg : 0 <= size file.

Let fsize := size file.
Let n := Z.to_nat (ceil_div fsize C).

Lemma ceil_div_nonneg : 0 <= ceil_div fsize C.
Proof.
  unfold ceil_div. apply Z.div_pos; lia.
Qed.

(** [k] is a valid chunk index exactly when its start offset is inside the
    file. *)
Lemma index_lt_count (k : nat) : (k < n)%nat <-> Z.of_nat k * C < fsize.
Proof.
  pose proof ceil_div_nonneg as Hn.
  unfold n. rewrite Nat2Z.inj_lt, Z2Nat.id by exact Hn.
  unfold ceil_div. split; intro H.
  - assert (Hk : Z.of_nat k + 1 <= (fsize + C - 1) / C) by lia.
    pose proof (Z.mul_div_le (fsize + C - 1) C C_pos) as Hm.
    nia.
  - assert (Hk : Z.of_nat k + 1 <= (fsize + C - 1) / C).
    { apply Z.div_le_lower_bound; [exact C_pos | lia]. }
    lia.
Qed.

Lemma count_covers : fsize <= Z.of_nat n * C.
Proof.
  destruct (Z_lt_le_dec (Z.of_nat n * C) fsize) as [H | H]; [| exact H].
  apply index_lt_count in H. lia.
Qed.

Lemma slice_inside (a b : Z) :
  0 <= a -> a <= b -> b <= fsize -> slice file a b = mkBlob a b.
Proof.
  intros Ha Hab Hb. unfold slice, relative_offset. fold fsize.
  destruct (a <? 0) eqn:Ea; [apply Z.ltb_lt in Ea; lia |].
  destruct (b <? 0) eqn:Eb; [apply Z.ltb_lt in Eb; lia |].
  f_equal; lia.
Qed.

Lemma seq_snoc (a k : nat) : seq a (S k) = seq a k ++ [(a + k)%nat].
Proof. rewrite seq_S. reflexivity. Qed.

(** The loop invariant: after [k] iterations the array holds the first [k]
    ranges and [start] is [min (k * C) fsize]. *)
Lemma chunk_loop_invariant (fuel k : nat) :
  (k <= n)%nat -> (n - k < fuel)%nat ->
  chunk_loop fuel file C (map (nth_range fsize C) (seq 0 k), Z.min (Z.of_nat k * C) fsize)
  = Some (expected_chunks fsize C).
Proof.
  revert k. induction fuel as [| fuel IH]; intros k Hk Hfuel; [lia |].
  cbn [chunk_loop]. unfold chunk_loop_cond. cbn [snd fst]. fold fsize.
  destruct (Z.min (Z.of_nat k * C) fsize <? fsize) eqn:E.
  - apply Z.ltb_lt in E.
    assert (Hlt : (k < n)%nat) by (apply index_lt_count; lia).
    unfold chunk_loop_body.
    assert (Hstart : Z.min (Z.of_nat k * C) fsize = Z.of_nat k * C) by lia.
    rewrite Hstart.
    assert (Hend : Z.min (Z.of_nat k * C + C) (size file)
                   = Z.min (Z.of_nat (S k) * C) fsize).
    { fold fsize. f_equal. lia. }
    rewrite Hend.
    rewrite slice_inside by (fold fsize; lia).
    replace (map (nth_range fsize C) (seq 0 k)
               ++ [mkBlob (Z.of_nat k * C) (Z.min (Z.of_nat (S k) * C) fsize)])
      with (map (nth_range fsize C) (seq 0 (S k))).
    + apply IH; lia.
    + rewrite seq_snoc, map_app. cbn [map Nat.add]. unfold nth_range.
      do 3 f_equal. lia.
  - apply Z.ltb_ge in E.
    assert (Hge : ~ (k < n)%nat) by (rewrite index_lt_count; lia).
    assert (k = n) by lia. subst k. reflexivity.
Qed.

(** With enough fuel the function returns the expected partition. *)
Lemma createFileChunks_expected (fuel : nat) :
  (n < fuel)%nat -> createFileChunks fuel file C = Some (expected_chunks fsize C).
Proof.
  intro Hfuel. unfold createFileChunks.
  pose proof (chunk_loop_invariant fuel 0) as H.
  cbn [seq map Z.of_nat] in H. rewrite Z.mul_0_l in H.
  replace (Z.min 0 fsize) with 0 in H by (unfold fsize; lia).
  apply H; lia.
Qed.

Lemma expected_length : List.length (expected_chunks fsize C) = n.
Proof. unfold expected_chunks. rewrite length_map, length_seq. reflexivity. Qed.

Lemma expected_nth (i : nat) (b : Blob) :
  nth_error (expected_chunks fsize C) i = Some b ->
  (i < n)%nat /\ b = nth_range fsize C i.
Proof.
  intro H. unfold expected_chunks in H.
  assert (Hi : (i < n)%nat).
  { assert (Hn : nth_error (map (nth_range fsize C) (seq 0 (Z.to_nat (ceil_div fsize C)))) i <> None)
      by congruence.
    apply nth_error_Some in Hn. now rewrite length_map, length_seq in Hn. }
  split; [exact Hi |].
  rewrite nth_error_map in H. fold n in H.
  rewrite nth_error_seq in H.
  destruct (i <? n)%nat eqn:E; [| apply Nat.ltb_ge in E; lia].
  cbn in H. congruence.
Qed.

Lemma nth_range_bounds (i : nat) :
  (i < n)%nat ->
  blob_start (nth_range fsize C i) = Z.of_nat i * C /\
  Z.of_nat i * C < blob_end (nth_range fsize C i) /\
  blob_end (nth_range fsize C i) <= (Z.of_nat i + 1) * C /\
  blob_end (nth_range fsize C i) <= fsize.
Proof.
  intro Hi. apply index_lt_count in Hi. unfold nth_range. cbn. lia.
Qed.

Lemma nth_range_full (i : nat) :
  (S i < n)%nat -> blob_end (nth_range fsize C i) = (Z.of_nat i + 1) * C.
Proof.
  intro Hi. apply index_lt_count in Hi. unfold nth_range. cbn. lia.
Qed.

Lemma expected_contiguous_from (m k : nat) :
  (k + S m <= n)%nat ->
  contiguous (Z.of_nat k * C) (Z.min (Z.of_nat (k + S m) * C) fsize)
    (map (nth_range fsize C) (seq k (S m))).
Proof.
  revert k. induction m as [| m IH]; intros k Hk.
  - cbn [seq map contiguous]. split; [reflexivity |].
    unfold nth_range. cbn [blob_end]. f_equal. lia.
  - change (seq k (S (S m)))
      with (k :: seq (S k) (S m)).
    cbn [map contiguous]. split; [reflexivity |].
    rewrite nth_range_full by lia.
    replace ((Z.of_nat k + 1) * C) with (Z.of_nat (S k) * C) by lia.
    replace (k + S (S m))%nat
      with (S k + S m)%nat by lia.
    apply IH. lia.
Qed.

Lemma expected_contiguous : contiguous 0 fsize (expected_chunks fsize C).
Proof.
  unfold expected_chunks. fold n.
  pose proof count_covers as Hc.
  destruct (Nat.eq_dec n 0) as [E | E].
  - rewrite E in *. cbn. unfold fsize in *. lia.
  - pose proof (expected_contiguous_from (n - 1) 0) as H.
    replace (0 + S (n - 1))%nat with n in H by lia.
    replace (S (n - 1)) with n in H by lia.
    change (Z.of_nat 0) with 0 in H. rewrite Z.mul_0_l in H.
    replace (Z.min (Z.of_nat n * C) fsize) with fsize in H by lia.
    apply H. lia.
Qed.

Lemma expected_nonempty : Forall nonempty_range (expected_chunks fsize C).
Proof.
  apply Forall_forall. intros b Hb.
  apply In_nth_error in Hb. destruct Hb as [i Hi].
  apply expected_nth in Hi. destruct Hi as [Hi ->].
  pose proof (nth_range_bounds i Hi). unfold nonempty_range. lia.
Qed.

Lemma expected_disjoint (i j : nat) (a b : Blob) :
  nth_error (expected_chunks fsize C) i = Some a ->
  nth_error (expected_chunks fsize C) j = Some b ->
  i <> j -> ~ overlap a b.
Proof.
  intros Ha Hb Hij [x [Hxa Hxb]].
  apply expected_nth in Ha. destruct Ha as [Hi ->].
  apply expected_nth in Hb. destruct Hb as [Hj ->].
  pose proof (nth_range_bounds i Hi). pose proof (nth_range_bounds j Hj).
  unfold in_range in *. apply Hij. nia.
Qed.

Lemma expected_cover (x : Z) :
  0 <= x < fsize <-> exists b, In b (expected_chunks fsize C) /\ in_range x b.
Proof.
  split.
  - intros Hx. set (i := Z.to_nat (x / C)).
    assert (Hq : 0 <= x / C) by (apply Z.div_pos; lia).
    pose proof (Z.mul_div_le x C C_pos) as Hlo.
    pose proof (Z.mul_succ_div_gt x C C_pos) as Hhi.
    assert (Hi : (i < n)%nat).
    { apply index_lt_count. unfold i. rewrite Z2Nat.id by exact Hq. lia. }
    exists (nth_range fsize C i). split.
    + unfold expected_chunks. apply in_map. apply in_seq. fold n. lia.
    + unfold in_range, nth_range. cbn. unfold i. rewrite Z2Nat.id by exact Hq. lia.
  - intros [b [Hb Hx]].
    apply In_nth_error in Hb. destruct Hb as [i Hi].
    apply expected_nth in Hi. destruct Hi as [Hi ->].
    pose proof (nth_range_bounds i Hi). unfold in_range in Hx. lia.
Qed.

Lemma expected_full_from (m k : nat) :
  (k + m <= n)%nat ->
  full_except_last C (map (nth_range fsize C) (seq k m)).
Proof.
  revert k. induction m as [| m IH]; intros k Hk; [exact I |].
  cbn [seq map]. specialize (IH (S k)).
  destruct m as [| m].
  - cbn. pose proof (nth_range_bounds k). unfold blob_size. lia.
  - cbn [full_except_last seq map] in *. split.
    + unfold blob_size. rewrite nth_range_full by lia. cbn. lia.
    + apply IH. lia.
Qed.

Lemma expected_full : full_except_last C (expected_chunks fsize C).
Proof. apply expected_full_from. fold n. lia. Qed.

End ChunkProducer.

(** A run that finished keeps its result when given more fuel. *)
Lemma chunk_loop_more_fuel (file : File) (C : Z) (fuel fuel' : nat)
  (st : ChunkLoopState) (chunks : list Blob) :
  chunk_loop fuel file C st = Some chunks -> (fuel <= fuel')%nat ->
  chunk_loop fuel' file C st = Some chunks.
Proof.
  revert fuel' st. induction fuel as [| fuel IH]; intros fuel' st H Hle.
  - discriminate H.
  - destruct fuel' as [| fuel']; [lia |].
    cbn [chunk_loop] in *.
    destruct (chunk_loop_cond file st); [| exact H].
    apply IH; [exact H | lia].
Qed.

(** Two runs that both finish give the same array. *)
Lemma chunk_loop_fuel_irrelevant (file : File) (C : Z) (fuel1 fuel2 : nat)
  (st : ChunkLoopState) (c1 c2 : list Blob) :
  chunk_loop fuel1 file C st = Some c1 ->
  chunk_loop fuel2 file C st = Some c2 -> c1 = c2.
Proof.
  intros H1 H2.
  apply chunk_loop_more_fuel with (fuel' := Nat.max fuel1 fuel2) in H1; [| lia].
  apply chunk_loop_more_fuel with (fuel' := Nat.max fuel1 fuel2) in H2; [| lia].
  congruence.
Qed.

(** The loop reads nothing of the file but its size. *)
Lemma chunk_loop_size_only (file1 file2 : File) (C : Z) (fuel : nat)
  (st : ChunkLoopState) :
  size file1 = size file2 ->
  chunk_loop fuel file1 C st = chunk_loop fuel file2 C st.
Proof.
  intro Hsize. revert st. induction fuel as [| fuel IH]; intro st; [reflexivity |].
  cbn [chunk_loop]. unfold chunk_loop_cond, chunk_loop_body, slice.
  rewrite Hsize. destruct st as [chunks start]. cbn [snd fst].
  destruct (start <? size file2); [apply IH | reflexivity].
Qed.

(** With a positive chunk size every iteration moves [start] forward by at
    least one byte and never past the end of the file. *)
Lemma chunk_loop_body_progress (file : File) (C : Z) (chunks : list Blob)
  (start : Z) :
  1 <= C -> chunk_loop_cond file (chunks, start) = true ->
  start + 1 <= snd (chunk_loop_body file C (chunks, start)) <= size file.
Proof.
  intros HC Hcond. unfold chunk_loop_cond in Hcond. cbn [snd] in Hcond.
  apply Z.ltb_lt in Hcond. cbn [chunk_loop_body snd]. lia.
Qed.

(** Every iteration pushes exactly one chunk. *)
Lemma chunk_loop_body_push (file : File) (C : Z) (st : ChunkLoopState) :
  List.length (fst (chunk_loop_body file C st)) = S (List.length (fst st)).
Proof.
  destruct st as [chunks start]. cbn [chunk_loop_body fst].
  rewrite length_app. cbn. lia.
Qed.

(** With a chunk size that is not positive the loop condition stays true. *)
Lemma chunk_loop_diverges (file : File) (C : Z) (fuel : nat)
  (chunks : list Blob) (start : Z) :
  C <= 0 -> start < size file ->
  chunk_loop fuel file C (chunks, start) = None.
Proof.
  intros HC. revert chunks start.
  induction fuel as [| fuel IH]; intros chunks start Hstart; [reflexivity |].
  cbn [chunk_loop]. unfold chunk_loop_cond. cbn [snd].
  destruct (start <? size file) eqn:E; [| apply Z.ltb_ge in E; lia].
  cbn [chunk_loop_body]. apply IH. lia.
Qed.

Lemma chunk_count_le_size (file : File) (C : Z) :
  1 <= C -> 0 <= size file ->
  (Z.to_nat (ceil_div (size file) C) <= Z.to_nat (size file))%nat.
Proof.
  intros HC HS.
  destruct (le_lt_dec (Z.to_nat (ceil_div (size file) C)) (Z.to_nat (size file)))
    as [H | H]; [exact H |].
  apply index_lt_count in H; [| lia | exact HS].
  rewrite Z2Nat.id in H by exact HS. nia.
Qed.

(** Whatever the fuel, a run that returns gives the expected partition. *)
Lemma createFileChunks_result (file : File) (C : Z) (fuel : nat)
  (chunks : list Blob) :
  0 <= size file -> 0 < C ->
  createFileChunks fuel file C = Some chunks ->
  chunks = expected_chunks (size file) C.
Proof.
  intros HS HC H.
  pose proof (createFileChunks_expected file C HC HS
                (S (Z.to_nat (ceil_div (size file) C))) (Nat.lt_succ_diag_r _)) as He.
  unfold createFileChunks in *.
  eapply chunk_loop_fuel_irrelevant; eassumption.
Qed.

(** C1.  For a file of size [S >= 0] and a chunk size [C > 0],
    [createFileChunks] returns (given fuel for its [ceil(S / C)] iterations
    and the final test) a list of byte ranges that is contiguous from 0 to
    [S], made of non-empty and pairwise non-overlapping ranges, covers
    exactly the offsets of [0, S), has [ceil(S / C)] elements (none when
    [S = 0]), and in which every range has length [C] except possibly the
    last, whose length is at most [C]. *)
Theorem createFileChunks_partition (file : File) (C : Z) :
  0 <= size file -> 0 < C ->
  exists chunks : list Blob,
    (forall fuel, (Z.to_nat (ceil_div (size file) C) < fuel)%nat ->
       createFileChunks fuel file C = Some chunks) /\
    contiguous 0 (size file) chunks /\
    Forall nonempty_range chunks /\
    (forall i j a b, nth_error chunks i = Some a -> nth_error chunks j = Some b ->
       i <> j -> ~ overlap a b) /\
    (forall x, 0 <= x < size file <-> exists b, In b chunks /\ in_range x b) /\
    Z.of_nat (List.length chunks) = ceil_div (size file) C /\
    (size file = 0 -> chunks = []) /\
    full_except_last C chunks.
Proof.
  intros HS HC. exists (expected_chunks (size file) C).
  split; [intros fuel Hfuel; now apply createFileChunks_expected |].
  split; [now apply expected_contiguous |].
  split; [now apply expected_nonempty |].
  split; [intros i j a b; now apply expected_disjoint |].
  split; [intro x; now apply expected_cover |].
  split.
  { rewrite expected_length. apply Z2Nat.id. now apply ceil_div_nonneg. }
  split; [| now apply expected_full].
  intro H0. unfold expected_chunks, ceil_div. rewrite H0.
  replace ((0 + C - 1) / C) with 0; [reflexivity |].
  symmetry. apply Z.div_small. lia.
Qed.

Lemma createFileChunks_partition_witness :
  exists chunks : list Blob,
    (forall fuel, (Z.to_nat (ceil_div (size sample_file) DEFAULT_CHUNK_SIZE) < fuel)%nat ->
       createFileChunks fuel sample_file DEFAULT_CHUNK_SIZE = Some chunks) /\
    contiguous 0 (size sample_file) chunks /\
    Forall nonempty_range chunks /\
    (forall i j a b, nth_error chunks i = Some a -> nth_error chunks j = Some b ->
       i <> j -> ~ overlap a b) /\
    (forall x, 0 <= x < size sample_file <-> exists b, In b chunks /\ in_range x b) /\
    Z.of_nat (List.length chunks) = ceil_div (size sample_file) DEFAULT_CHUNK_SIZE /\
    (size sample_file = 0 -> chunks = []) /\
    full_except_last DEFAULT_CHUNK_SIZE chunks.
Proof.
  apply (createFileChunks_partition sample_file DEFAULT_CHUNK_SIZE).
  - vm_compute. discriminate.
  - reflexivity.
Defined.

(** C8.  [createFileChunks] is a function of the file size and the chunk
    size alone: two calls on files of the same size with the same chunk size
    that return, return the same list of ranges; and for a size [S >= 0] and
    a chunk size [C > 0] both calls do return (the model has no abrupt
    completion for this function, and the loop finishes), with that same
    list. *)
Theorem createFileChunks_deterministic (file1 file2 : File) (C : Z) :
  size file1 = size file2 ->
  (forall fuel1 fuel2 chunks1 chunks2,
     createFileChunks fuel1 file1 C = Some chunks1 ->
     createFileChunks fuel2 file2 C = Some chunks2 ->
     chunks1 = chunks2) /\
  (0 <= size file1 -> 0 < C ->
   exists chunks, forall fuel1 fuel2,
     (Z.to_nat (ceil_div (size file1) C) < fuel1)%nat ->
     (Z.to_nat (ceil_div (size file1) C) < fuel2)%nat ->
     createFileChunks fuel1 file1 C = Some chunks /\
     createFileChunks fuel2 file2 C = Some chunks).
Proof.
  intro Hsize. split.
  - intros fuel1 fuel2 c1 c2 H1 H2. unfold createFileChunks in *.
    rewrite (chunk_loop_size_only file1 file2 C fuel1 _ Hsize) in H1.
    eapply chunk_loop_fuel_irrelevant; eassumption.
  - intros HS HC. exists (expected_chunks (size file1) C).
    intros fuel1 fuel2 H1 H2. split.
    + now apply createFileChunks_expected.
    + rewrite Hsize in *. now apply createFileChunks_expected.
Qed.

Lemma createFileChunks_deterministic_witness :
  createFileChunks 4 sample_file DEFAULT_CHUNK_SIZE
  = createFileChunks 9 (mkFile "copy.bin" 2621440 "application/pdf") DEFAULT_CHUNK_SIZE.
Proof.
  destruct (createFileChunks_deterministic sample_file
              (mkFile "copy.bin" 2621440 "application/pdf") DEFAULT_CHUNK_SIZE eq_refl)
    as [_ Hrun].
  destruct Hrun as [chunks Hchunks].
  - vm_compute. discriminate.
  - reflexivity.
  - destruct (Hchunks 4%nat 9%nat) as [H1 H2].
    + vm_compute. lia.
    + vm_compute. lia.
    + rewrite H1, H2. reflexivity.
Defined.

(** C9.  For a file size [S >= 0] and a chunk size [C >= 1] the loop of
    [createFileChunks] terminates: every iteration increases [start] by at
    least 1 and keeps it at most [S], fuel for [S + 1] evaluations of the
    loop condition (hence at most [S] iterations) is enough, and the result
    has at most [S] chunks, one per iteration.  With [C <= 0] and [S > 0] no
    amount of fuel is enough. *)
Theorem createFileChunks_terminates (file : File) (C : Z) :
  0 <= size file ->
  (1 <= C ->
   (forall chunks start,
      chunk_loop_cond file (chunks, start) = true ->
      start + 1 <= snd (chunk_loop_body file C (chunks, start)) <= size file /\
      List.length (fst (chunk_loop_body file C (chunks, start)))
      = S (List.length chunks)) /\
   exists chunks,
     createFileChunks (S (Z.to_nat (size file))) file C = Some chunks /\
     (List.length chunks <= Z.to_nat (size file))%nat) /\
  (C <= 0 -> 0 < size file ->
   forall fuel, createFileChunks fuel file C = None).
Proof.
  intro HS. split.
  - intro HC. split.
    + intros chunks start Hcond. split.
      * now apply chunk_loop_body_progress.
      * apply (chunk_loop_body_push file C (chunks, start)).
    + pose proof (chunk_count_le_size file C HC HS) as Hn.
      exists (expected_chunks (size file) C). split.
      * apply createFileChunks_expected; lia.
      * rewrite expected_length. exact Hn.
  - intros HC Hpos fuel. unfold createFileChunks.
    now apply chunk_loop_diverges.
Qed.

Lemma createFileChunks_terminates_witness :
  (exists chunks,
     createFileChunks (S (Z.to_nat (size sample_file))) sample_file 7
     = Some chunks /\
     (List.length chunks <= Z.to_nat (size sample_file))%nat) /\
  (forall fuel, createFileChunks fuel sample_file 0 = None).
Proof.
  split.
  - assert (HS : 0 <= size sample_file) by (vm_compute; discriminate).
    assert (HC : 1 <= 7) by lia.
    exact (proj2 (proj1 (createFileChunks_terminates sample_file 7 HS) HC)).
  - assert (HS : 0 <= size sample_file) by (vm_compute; discriminate).
    assert (HC : 0 <= 0) by lia.
    assert (Hpos : 0 < size sample_file) by reflexivity.
    exact (proj2 (createFileChunks_terminates sample_file 0 HS) HC Hpos).
Defined.

(** * Traces of uploadFileInChunks *)

Section UploadLoop.

Variable fetch : Network.
Variable url : string.
Variable headers : Headers.
Variable chunks : list Blob.
Variable uid : Value.
Variable onProgress : Callback ProgressRecord.

Let total := List.length chunks.
Let body := upload_chunk fetch url headers chunks uid onProgress.
Let request := chunk_request url headers chunks uid.

Lemma upload_loop_trace (remaining i : nat) (log : Log) :
  (i + remaining = total)%nat ->
  exists acks tail c,
    for_loop_from remaining i total body i log
    = (c, log ++ acked_events url headers chunks uid i acks ++ tail) /\
    Forall (fun r => ok r = true) acks /\
    loop_end url headers chunks uid onProgress (i + List.length acks) c tail.
Proof.
  revert i log. induction remaining as [| remaining IH]; intros i log Hi.
  - exists [], [], (Normal total). cbn. rewrite app_nil_r.
    replace i with total by lia.
    split; [reflexivity |]. split; [constructor |].
    left. unfold total in *. repeat split; lia.
  - cbn [for_loop_from].
    destruct (i <? total)%nat eqn:Elt; [| apply Nat.ltb_ge in Elt; lia].
    apply Nat.ltb_lt in Elt.
    unfold bind at 1. unfold body at 1, upload_chunk.
    unfold bind at 1.
    destruct (to_string uid) as [e0 | text] eqn:Etext; cbn [await].
    { (* the upload id cannot be converted *)
      exists [], [], (Abrupt e0).
      cbn [acked_events app List.length]. rewrite Nat.add_0_r, app_nil_r.
      split; [reflexivity |]. split; [constructor |].
      right; left. exists e0. repeat split; [lia | now right]. }
    unfold bind at 1. unfold await_fetch.
    fold (request i).
    set (sent := log ++ [EvFetch (request i)]).
    destruct (fetch sent (request i)) as [e | r] eqn:Efetch; cbn [await].
    + (* transport failure *)
      exists [], [EvFetch (request i); EvSettled (inl e)], (Abrupt e).
      cbn [acked_events app List.length]. rewrite Nat.add_0_r.
      split; [| split; [constructor |]].
      * unfold sent. now rewrite <- app_assoc.
      * right; right; left. exists e. repeat split; assumption.
    + destruct (ok r) eqn:Eok; cbn [negb].
      * (* acknowledged *)
        unfold bind at 1. unfold call.
        fold total.
        set (p := progress_record uid total (S i)).
        set (log1 := (sent ++ [EvSettled (inr r)]) ++ [EvProgress p]).
        assert (Hlog1 : log1 = log ++ ack_events url headers chunks uid i r).
        { unfold log1, sent, ack_events. fold total. fold p. fold (request i).
          now rewrite <- !app_assoc. }
        destruct (onProgress log1 p) as [e |] eqn:Ecb.
        -- exists [r], [], (Abrupt e).
           cbn [acked_events]. rewrite !app_nil_r.
           split; [now rewrite Hlog1 |]. split; [now constructor |].
           right; left. exists e. cbn [List.length].
           repeat split; [unfold total in *; lia |].
           left. now exists log1, p.
        -- unfold ret at 1.
           destruct (IH (S i) log1) as (acks & tail & c & Hrun & Hacks & Hend);
             [lia |].
           exists (r :: acks), tail, c.
           split; [| split].
           ++ fold body. rewrite Hrun. rewrite Hlog1.
              cbn [acked_events]. now rewrite <- !app_assoc.
           ++ now constructor.
           ++ cbn [List.length]. now rewrite Nat.add_succ_r.
      * (* rejected by the server *)
        unfold throw.
        exists [], [EvFetch (request i); EvSettled (inr r)],
          (Abrupt (new_Error (chunk_error_message i (statusText r)))).
        cbn [acked_events app List.length]. rewrite Nat.add_0_r.
        split; [| split; [constructor |]].
        -- unfold sent. now rewrite <- app_assoc.
        -- right; right; right. exists r. repeat split; assumption.
Qed.

End UploadLoop.

Lemma bind_run {A B : Type} (m : Async A) (k : A -> Async B) (log : Log) :
  bind m k log
  = match m log with
    | (Normal a, log') => k a log'
    | (Abrupt e, log') => (Abrupt e, log')
    end.
Proof. reflexivity. Qed.

Lemma await_fetch_run (fetch : Network) (req : Request) (log : Log) :
  await_fetch fetch req log
  = match fetch (log ++ [EvFetch req]) req with
    | inl e => (Abrupt e, (log ++ [EvFetch req]) ++ [EvSettled (inl e)])
    | inr r => (Normal r, (log ++ [EvFetch req]) ++ [EvSettled (inr r)])
    end.
Proof.
  unfold await_fetch, await.
  destruct (fetch (log ++ [EvFetch req]) req); reflexivity.
Qed.

Section UploadTrace.

Variable fetch : Network.
Variable url : string.
Variable file : File.
Variable headers : Headers.
Variable metadata : Value.
Variable onProgress : Callback ProgressRecord.
Variable onError : Callback Exn.
Variable onSuccess : Callback Value.
Variable chunks : list Blob.

(** The [try] block, run on an empty history, ends in one of the four ways
    of [TryTrace]. *)
Lemma upload_try_trace :
  TryTrace fetch url file headers metadata onProgress onSuccess chunks
    (fst (upload_try fetch url file headers metadata onProgress onSuccess chunks []))
    (snd (upload_try fetch url file headers metadata onProgress onSuccess chunks [])).
Proof.
  unfold upload_try.
  set (total := List.length chunks).
  set (init := init_request url file headers metadata total).
  rewrite bind_run, await_fetch_run. cbn [app].
  match goal with |- context [fetch ?a ?b] => destruct (fetch a b) as [e0 | r0] eqn:Einit end; cbn [fst snd].
  { apply (TT_init_failed fetch url file headers metadata onProgress onSuccess
             chunks (inl e0) e0); [symmetry; exact Einit | reflexivity]. }
  destruct (ok r0) eqn:Eok0; cbn [negb].
  2:{ unfold throw. cbn [fst snd].
      apply (TT_init_failed fetch url file headers metadata onProgress onSuccess
               chunks (inr r0)); [symmetry; exact Einit |].
      cbn. now rewrite Eok0. }
  rewrite bind_run.
  destruct (json r0) as [e1 | body] eqn:Ejson; cbn [await fst snd].
  { apply (TT_init_failed fetch url file headers metadata onProgress onSuccess
             chunks (inr r0)); [symmetry; exact Einit |].
    cbn. now rewrite Eok0, Ejson. }
  rewrite bind_run.
  destruct (destructure "uploadId" body) as [e2 | uid] eqn:Euid; cbn [await fst snd].
  { apply (TT_init_failed fetch url file headers metadata onProgress onSuccess
             chunks (inr r0)); [symmetry; exact Einit |].
    cbn. now rewrite Eok0, Ejson. }
  assert (Hinit : init_outcome (inr r0) = inr uid)
    by (cbn; now rewrite Eok0, Ejson).
  rewrite bind_run. unfold for_loop.
  destruct (upload_loop_trace fetch url headers chunks uid onProgress
              (total - 0) 0 [EvFetch init; EvSettled (inr r0)])
    as (acks & tail & cl & Hloop & Hacks & Hend); [unfold total; lia |].
  fold total in Hloop. fold init in Hloop. rewrite Hloop. cbn [Nat.add] in Hend.
  destruct cl as [n | e].
  2:{ cbn [fst snd app].
      apply (TT_chunk_failed fetch url file headers metadata onProgress onSuccess
               chunks (inr r0) uid acks tail e); auto. }
  assert (Hfull : List.length acks = total /\ tail = []).
  { destruct Hend as [(_ & Ht & Hj) | [(e & Hc & _) | [(e & Hc & _) | (r & _ & _ & Hc & _)]]];
      try discriminate Hc. split; assumption. }
  destruct Hfull as [Hlen ->]. rewrite app_nil_r.
  rewrite bind_run, await_fetch_run.
  set (complete := complete_request url headers uid).
  set (lg := ([EvFetch init; EvSettled (inr r0)]
                ++ acked_events url headers chunks uid 0 acks)
               ++ [EvFetch complete]).
  assert (Hlg : lg = EvFetch init :: EvSettled (inr r0)
                       :: acked_events url headers chunks uid 0 acks
                       ++ [EvFetch complete]) by reflexivity.
  fold lg.
  destruct (fetch lg complete) as [e3 | rc] eqn:Ecomplete; cbn [fst snd].
  { replace (lg ++ [EvSettled (inl e3)])
      with (EvFetch init :: EvSettled (inr r0)
              :: acked_events url headers chunks uid 0 acks
              ++ [EvFetch complete; EvSettled (inl e3)])
      by (rewrite Hlg; cbn [app]; now rewrite <- app_assoc).
    apply (TT_complete_failed fetch url file headers metadata onProgress
             onSuccess chunks (inr r0) uid acks (inl e3) e3); auto. }
  destruct (ok rc) eqn:Eokc; cbn [negb].
  2:{ unfold throw. cbn [fst snd].
      replace (lg ++ [EvSettled (inr rc)])
        with (EvFetch init :: EvSettled (inr r0)
                :: acked_events url headers chunks uid 0 acks
                ++ [EvFetch complete; EvSettled (inr rc)])
        by (rewrite Hlg; cbn [app]; now rewrite <- app_assoc).
      apply (TT_complete_failed fetch url file headers metadata onProgress
               onSuccess chunks (inr r0) uid acks (inr rc)); auto.
      cbn. now rewrite Eokc. }
  rewrite bind_run.
  destruct (json rc) as [e4 | v] eqn:Ejsonc; cbn [await fst snd].
  { replace (lg ++ [EvSettled (inr rc)])
      with (EvFetch init :: EvSettled (inr r0)
              :: acked_events url headers chunks uid 0 acks
              ++ [EvFetch complete; EvSettled (inr rc)])
      by (rewrite Hlg; cbn [app]; now rewrite <- app_assoc).
    apply (TT_complete_failed fetch url file headers metadata onProgress
             onSuccess chunks (inr r0) uid acks (inr rc)); auto.
    cbn. now rewrite Eokc, Ejsonc. }
  rewrite bind_run. unfold call.
  set (log := (lg ++ [EvSettled (inr rc)]) ++ [EvSuccess v]).
  assert (Hlog : log = EvFetch init :: EvSettled (inr r0)
                         :: acked_events url headers chunks uid 0 acks
                         ++ [EvFetch complete; EvSettled (inr rc); EvSuccess v]).
  { unfold log. rewrite Hlg. cbn [app]. now rewrite <- !app_assoc. }
  pose proof (TT_completed fetch url file headers metadata onProgress onSuccess
                chunks (inr r0) uid acks (inr rc) v log) as HT.
  cbn zeta in HT. fold total in HT. fold init in HT. fold complete in HT.
  specialize (HT (eq_sym Einit) Hinit Hacks Hlen).
  rewrite <- Hlg, Ecomplete in HT. specialize (HT eq_refl).
  assert (Hco : complete_outcome (inr rc) = inr v) by (cbn; now rewrite Eokc).
  specialize (HT Hco Hlog).
  destruct (onSuccess log v) as [e5 |]; cbn [fst snd ret]; exact HT.
Qed.

(** The whole function: the [try] block followed, on an abrupt completion,
    by the [catch] clause. *)
Lemma uploadFileInChunks_trace (fuel : nat) (chunkSize : Z) :
  createFileChunks fuel file chunkSize = Some chunks ->
  exists c log,
    TryTrace fetch url file headers metadata onProgress onSuccess chunks c log /\
    uploadFileInChunks fetch fuel url file headers metadata
      onProgress onError onSuccess chunkSize
    = Some (catch_result onError c log).
Proof.
  intro Hchunks. unfold uploadFileInChunks. rewrite Hchunks.
  pose proof upload_try_trace as HT.
  unfold try_catch.
  destruct (upload_try fetch url file headers metadata onProgress onSuccess chunks [])
    as [c log]. cbn [fst snd] in HT.
  exists c, log. split; [exact HT |].
  destruct c as [v | e]; [reflexivity |].
  unfold catch_result, upload_catch, bind, call, throw.
  destruct (onError (log ++ [EvError e]) e); reflexivity.
Qed.

End UploadTrace.

(** * Reading the log of a run *)

Lemma append_eqb_suffix (url a b : string) :
  String.eqb (url ++ a) (url ++ b) = String.eqb a b.
Proof.
  induction url as [| ch url IH]; [reflexivity |].
  cbn. now rewrite Ascii.eqb_refl.
Qed.

Section AckedEvents.

Variable url : string.
Variable headers : Headers.
Variable chunks : list Blob.
Variable uid : Value.

Let request := chunk_request url headers chunks uid.
Let report := progress_record uid (List.length chunks).
Let acked := acked_events url headers chunks uid.

Lemma acked_exchanges (acks : list Response) (i : nat) (rest : Log) :
  exchanges (acked i acks ++ rest)
  = combine (map request (seq i (List.length acks))) (map inr acks)
    ++ exchanges rest.
Proof.
  revert i. induction acks as [| r acks IH]; intro i; [reflexivity |].
  cbn [acked acked_events ack_events app exchanges List.length seq map combine].
  f_equal. apply IH.
Qed.

Lemma acked_sent_requests (acks : list Response) (i : nat) (rest : Log) :
  sent_requests (acked i acks ++ rest)
  = map request (seq i (List.length acks)) ++ sent_requests rest.
Proof.
  revert i. induction acks as [| r acks IH]; intro i; [reflexivity |].
  cbn [acked acked_events ack_events app sent_requests List.length seq map].
  f_equal. apply IH.
Qed.

Lemma acked_progress_reports (acks : list Response) (i : nat) (rest : Log) :
  progress_reports (acked i acks ++ rest)
  = map report (seq (S i) (List.length acks)) ++ progress_reports rest.
Proof.
  revert i. induction acks as [| r acks IH]; intro i; [reflexivity |].
  cbn [acked acked_events ack_events app progress_reports List.length seq map].
  f_equal. apply IH.
Qed.

Lemma acked_errors_reported (acks : list Response) (i : nat) (rest : Log) :
  errors_reported (acked i acks ++ rest) = errors_reported rest.
Proof.
  revert i. induction acks as [| r acks IH]; intro i; [reflexivity |].
  cbn [acked acked_events ack_events app errors_reported]. apply IH.
Qed.

Lemma acked_successes_reported (acks : list Response) (i : nat) (rest : Log) :
  successes_reported (acked i acks ++ rest) = successes_reported rest.
Proof.
  revert i. induction acks as [| r acks IH]; intro i; [reflexivity |].
  cbn [acked acked_events ack_events app successes_reported]. apply IH.
Qed.

Lemma acked_serial (acks : list Response) (i : nat) (rest : Log) :
  serial false (acked i acks ++ rest) = serial false rest.
Proof.
  revert i. induction acks as [| r acks IH]; intro i; [reflexivity |].
  cbn [acked acked_events ack_events app serial negb andb]. apply IH.
Qed.

Lemma request_to_chunk (i : nat) : to_endpoint url "/chunk" (request i) = true.
Proof. apply String.eqb_refl. Qed.

Lemma filter_chunk_requests (l : list nat) :
  filter (to_endpoint url "/chunk") (map request l) = map request l.
Proof.
  induction l as [| i l IH]; [reflexivity |].
  cbn [map filter]. rewrite request_to_chunk. now rewrite IH.
Qed.

(** Acknowledged chunk exchanges all pass the filter of [acked_chunks]. *)
Lemma filter_acked (acks : list Response) (i : nat) :
  Forall (fun r => ok r = true) acks ->
  filter (fun x => to_endpoint url "/chunk" (fst x) && is_ok (snd x))
    (combine (map request (seq i (List.length acks))) (map inr acks))
  = combine (map request (seq i (List.length acks))) (map inr acks).
Proof.
  intro H. revert i. induction H as [| r acks Hr _ IH]; intro i; [reflexivity |].
  cbn [List.length seq map combine filter fst snd is_ok].
  rewrite request_to_chunk, Hr. cbn [andb]. now rewrite IH.
Qed.

Lemma combine_acked_length (acks : list Response) (i : nat) :
  List.length (combine (map request (seq i (List.length acks)))
                 (map (@inr Exn Response) acks))
  = List.length acks.
Proof.
  rewrite length_combine, !length_map, length_seq. lia.
Qed.

End AckedEvents.

(** * Properties of uploadFileInChunks *)

Lemma endpoint_init_chunk (url : string) (file : File) (headers : Headers)
  (metadata : Value) (n : nat) :
  to_endpoint url "/chunk" (init_request url file headers metadata n) = false.
Proof. unfold to_endpoint. cbn [req_url init_request]. now rewrite append_eqb_suffix. Qed.

Lemma endpoint_complete_chunk (url : string) (headers : Headers) (uid : Value) :
  to_endpoint url "/chunk" (complete_request url headers uid) = false.
Proof. unfold to_endpoint. cbn [req_url complete_request]. now rewrite append_eqb_suffix. Qed.

Lemma endpoint_init_complete (url : string) (file : File) (headers : Headers)
  (metadata : Value) (n : nat) :
  to_endpoint url "/complete" (init_request url file headers metadata n) = false.
Proof. unfold to_endpoint. cbn [req_url init_request]. now rewrite append_eqb_suffix. Qed.

Lemma endpoint_chunk_complete (url : string) (headers : Headers)
  (chunks : list Blob) (uid : Value) (i : nat) :
  to_endpoint url "/complete" (chunk_request url headers chunks uid i) = false.
Proof. unfold to_endpoint. cbn [req_url chunk_request]. now rewrite append_eqb_suffix. Qed.

Lemma endpoint_chunk_chunk (url : string) (headers : Headers)
  (chunks : list Blob) (uid : Value) (i : nat) :
  to_endpoint url "/chunk" (chunk_request url headers chunks uid i) = true.
Proof. apply String.eqb_refl. Qed.

Lemma endpoint_complete_complete (url : string) (headers : Headers) (uid : Value) :
  to_endpoint url "/complete" (complete_request url headers uid) = true.
Proof. apply String.eqb_refl. Qed.

Lemma uploadedChunks_reports (uid : Value) (total : nat) (l : list nat) :
  map uploadedChunks (map (progress_record uid total) l) = l.
Proof.
  rewrite map_map. cbn [progress_record uploadedChunks]. apply map_id.
Qed.

(** Case analysis on a run: the four ways the [try] block can end, the three
    ways the loop can fail, and the effect of the [catch] clause. *)
Ltac run_cases Hrun Hc Hlog :=
  let c0 := fresh "c0" in
  let log0 := fresh "log0" in
  let HT := fresh "HT" in
  let Heq := fresh "Heq" in
  let Hend := fresh "Hend" in
  let Hlog1 := fresh "Hlog1" in
  let Hcl := fresh "Hcl" in
  match type of Hrun with
  | uploadFileInChunks ?fetch ?fuel ?url ?file ?headers ?metadata
      ?onProgress ?onError ?onSuccess ?chunkSize = Some (?c, ?log) =>
      match goal with
      | Hchunks : createFileChunks fuel file chunkSize = Some ?chunks |- _ =>
          destruct (uploadFileInChunks_trace fetch url file headers metadata
                      onProgress onError onSuccess chunks fuel chunkSize Hchunks)
            as (c0 & log0 & HT & Heq);
          rewrite Heq in Hrun; clear Heq;
          destruct HT as [res0 exn init Hres0 Hinit
                         | res0 uid acks tail exn init Hres0 Hinit Hacks Hend
                         | res0 uid acks rc exn init complete
                             Hres0 Hinit Hacks Hlen Hrc Hcomplete
                         | res0 uid acks rc vres log1 init complete
                             Hres0 Hinit Hacks Hlen Hrc Hcomplete Hlog1];
          [ | destruct Hend as [(Hcl & _)
                               | [(exn' & Hcl & Hj & -> & Hthrew)
                                 | [(exn' & Hcl & Hj & ->)
                                   | (rbad & Hok & Hj & Hcl & ->)]]];
              [discriminate Hcl | injection Hcl as <- | injection Hcl as <-
              | injection Hcl as -> ]
            | | destruct (onSuccess log1 vres) as [exn |] eqn:Hsuccess;
                rewrite Hlog1 in Hrun ];
          cbn [catch_result] in Hrun;
          injection Hrun as Hc Hlog;
          rewrite ?app_nil_r in Hlog; rewrite ?app_nil_r in Hc;
          rewrite <- ?app_assoc in Hlog; cbn [app] in Hlog;
          rewrite <- ?app_assoc in Hc; cbn [app] in Hc;
          try rewrite Hlog in Hc;
          symmetry in Hc; symmetry in Hlog;
          try subst complete; subst init
      end
  end.

Lemma serial_prefix_in_flight (pre post : Log) (pending : bool) :
  serial pending (pre ++ post) = true ->
  in_flight pre + (if pending then 1 else 0) = 0 \/
  in_flight pre + (if pending then 1 else 0) = 1.
Proof.
  revert pending. induction pre as [| ev pre IH]; intros pending H.
  - destruct pending; cbn; lia.
  - destruct ev; cbn [app serial in_flight] in *;
      try (now apply IH).
    + apply andb_prop in H. destruct H as [Hp H].
      destruct pending; [discriminate Hp |].
      specialize (IH true H). cbn in IH. lia.
    + apply andb_prop in H. destruct H as [Hp H].
      destruct pending; [| discriminate Hp].
      specialize (IH false H). cbn in IH. lia.
Qed.

Lemma seq_nth_step (a n k x y : nat) :
  nth_error (seq a n) k = Some x -> nth_error (seq a n) (S k) = Some y ->
  y = S x.
Proof.
  rewrite !nth_error_seq. intros Hx Hy.
  destruct (k <? n)%nat; [| discriminate Hx].
  destruct (S k <? n)%nat; [| discriminate Hy].
  injection Hx as <-. injection Hy as <-. lia.
Qed.

(** ** Decimal indices in requests and error messages *)

Lemma to_uint_nonnil (n : nat) : Nat.to_uint n <> Decimal.Nil.
Proof.
  rewrite <- (DecimalNat.Unsigned.of_to n) at 1.
  rewrite DecimalNat.Unsigned.to_of. apply DecimalFacts.unorm_nonnil.
Qed.

Lemma string_of_nat_inj (i j : nat) : string_of_nat i = string_of_nat j -> i = j.
Proof.
  intro H. unfold string_of_nat in H.
  apply (f_equal NilZero.uint_of_string) in H.
  rewrite !NilZero.usu in H by apply to_uint_nonnil.
  injection H as H. now apply DecimalNat.Unsigned.to_uint_inj.
Qed.

Lemma digits_without_colon (d : Decimal.uint) :
  without_char ":" (NilEmpty.string_of_uint d).
Proof.
  induction d; cbn; try exact I; split; try exact IHd; discriminate.
Qed.

Lemma string_of_nat_without_colon (n : nat) : without_char ":" (string_of_nat n).
Proof.
  unfold string_of_nat, NilZero.string_of_uint.
  destruct (Nat.to_uint n) eqn:E;
    try (rewrite <- E; apply digits_without_colon).
  cbn. split; [discriminate | exact I].
Qed.

Lemma prefix_before_char (ch : ascii) (a b s s' : string) :
  without_char ch a -> without_char ch b ->
  (a ++ String ch s)%string = (b ++ String ch s')%string -> a = b.
Proof.
  revert b. induction a as [| x a IH]; intros b Ha Hb H.
  - destruct b as [| y b]; [reflexivity |].
    cbn in H. injection H as Hy _. destruct Hb as [Hb _]. now destruct Hb.
  - destruct b as [| y b].
    + cbn in H. injection H as Hx _. destruct Ha as [Ha _]. now destruct Ha.
    + cbn in H. injection H as -> H. f_equal.
      destruct Ha as [_ Ha]. destruct Hb as [_ Hb]. now apply IH.
Qed.

(** The message of a chunk error determines the index of the chunk. *)
Lemma chunk_error_message_index (i j : nat) (s s' : string) :
  chunk_error_message i s = chunk_error_message j s' -> i = j.
Proof.
  unfold chunk_error_message. intro H.
  cbn [String.append] in H.
  repeat match type of H with
         | String _ _ = String _ _ => injection H as H
         end.
  apply string_of_nat_inj.
  apply (prefix_before_char ":" _ _ (String " " s) (String " " s'));
    [apply string_of_nat_without_colon | apply string_of_nat_without_colon |].
  exact H.
Qed.

Lemma chunk_request_index (url : string) (headers : Headers)
  (chunks : list Blob) (uid : Value) (i j : nat) :
  chunk_request url headers chunks uid i = chunk_request url headers chunks uid j ->
  i = j.
Proof.
  unfold chunk_request, chunk_form. intro H.
  injection H as _ H. now apply string_of_nat_inj.
Qed.


(** * The percentage computed by the progress report *)

Lemma digits2_pos_iter_xO (p k : positive) :
  digits2_pos (Pos.iter xO p k) = (digits2_pos p + k)%positive.
Proof.
  induction k as [| k IH] using Pos.peano_ind.
  - cbn. lia.
  - rewrite Pos.iter_succ. cbn [digits2_pos]. rewrite IH. lia.
Qed.

Lemma digits2_pos_lower (p : positive) :
  2 ^ (Z.pos (digits2_pos p) - 1) <= Z.pos p.
Proof.
  induction p as [p IH | p IH |]; cbn [digits2_pos].
  - rewrite Pos2Z.inj_succ.
    replace (Z.succ (Z.pos (digits2_pos p)) - 1)
      with (Z.succ (Z.pos (digits2_pos p) - 1)) by lia.
    rewrite Z.pow_succ_r by lia. lia.
  - rewrite Pos2Z.inj_succ.
    replace (Z.succ (Z.pos (digits2_pos p)) - 1)
      with (Z.succ (Z.pos (digits2_pos p) - 1)) by lia.
    rewrite Z.pow_succ_r by lia. lia.
  - cbn. lia.
Qed.

Lemma digits2_pos_le_53 (p : positive) :
  Z.pos p < 2 ^ 53 -> Z.pos (digits2_pos p) <= 53.
Proof.
  intro H. pose proof (digits2_pos_lower p) as Hl.
  destruct (Z_le_gt_dec (Z.pos (digits2_pos p)) 53) as [Hle | Hgt]; [exact Hle |].
  exfalso.
  assert (Hpow : 2 ^ 53 <= 2 ^ (Z.pos (digits2_pos p) - 1))
    by (apply Z.pow_le_mono_r; lia).
  lia.
Qed.

(** An integer in (0, 2^53) converts to a positive finite Number. *)
Lemma Number_of_Z_finite (z : Z) :
  0 < z < 2 ^ 53 -> exists m e, Number_of_Z z = S754_finite false m e.
Proof.
  intros [Hpos Hlt]. destruct z as [| p | p]; try lia.
  pose proof (digits2_pos_le_53 p Hlt) as Hd.
  unfold Number_of_Z, binary_normalize, binary_round.
  set (d := digits2_pos p) in *.
  assert (Hfexp : fexp prec emax (Z.pos d + 0) = Z.pos d - 53).
  { unfold fexp, emin, prec, emax. lia. }
  rewrite Hfexp. unfold shl_align.
  assert (Hround : forall mz ez,
             digits2_pos mz = 53%positive -> -52 <= ez <= 0 ->
             binary_round_aux prec emax false (Z.pos mz) ez loc_Exact
             = S754_finite false mz ez).
  { intros mz ez Hmz Hez. unfold binary_round_aux, shr_fexp.
    cbn [Zdigits2 shr_record_of_loc]. rewrite Hmz.
    assert (Hf : fexp prec emax (53 + ez) - ez = 0)
      by (unfold fexp, emin, prec, emax; lia).
    rewrite Hf. cbn [shr shr_m loc_of_shr_record round_nearest_even Zdigits2].
    rewrite Hmz, Hf. cbn [shr shr_m shr_record_of_loc].
    destruct (ez <=? emax - prec) eqn:E; [reflexivity |].
    apply Z.leb_gt in E. unfold emax, prec in E. lia. }
  destruct (Z.pos d - 53 - 0) as [| k | k] eqn:Ek; try lia.
  - exists p, 0. apply Hround; [| lia]. fold d. lia.
  - exists (Pos.iter xO p k), (Z.pos d - 53). apply Hround; [| lia].
    rewrite digits2_pos_iter_xO. fold d. lia.
Qed.

(** A positive finite Number divided by itself is 1. *)
Lemma Number_div_self (m : positive) (e : Z) :
  Number_div (S754_finite false m e) (S754_finite false m e)
  = S754_finite false 4503599627370496 (-52).
Proof.
  unfold Number_div, SFdiv, SFdiv_core_binary. cbn [Zdigits2 xorb].
  rewrite !Z.sub_diag.
  change (Z.min (fexp prec emax 0) 0) with (-53).
  change (0 - -53) with 53.
  rewrite Z.shiftl_mul_pow2 by lia.
  assert (Hdiv : Z.div_eucl (Z.pos m * 2 ^ 53) (Z.pos m) = (2 ^ 53, 0)).
  { pose proof (Z.div_mul (2 ^ 53) (Z.pos m)) as Hq.
    pose proof (Z.mod_mul (2 ^ 53) (Z.pos m)) as Hr.
    unfold Z.div, Z.modulo in Hq, Hr.
    rewrite (Z.mul_comm (Z.pos m)).
    destruct (Z.div_eucl (2 ^ 53 * Z.pos m) (Z.pos m)) as [q r].
    rewrite Hq, Hr by lia. reflexivity. }
  rewrite Hdiv.
  assert (Hloc : new_location (Z.pos m) 0 = loc_Exact).
  { unfold new_location, new_location_even, new_location_odd.
    destruct (Z.even (Z.pos m)); reflexivity. }
  rewrite Hloc. vm_compute. reflexivity.
Qed.

(** When every chunk has been uploaded the percentage is exactly 100. *)
Lemma progress_percent_full (n : nat) :
  0 < Z.of_nat n < 2 ^ 53 -> progress_percent n n = Number_of_Z 100.
Proof.
  intro Hn. unfold progress_percent, Number_of_nat.
  destruct (Number_of_Z_finite (Z.of_nat n) Hn) as (m & e & ->).
  rewrite Number_div_self. vm_compute. reflexivity.
Qed.

(** With fewer than 200 chunks the percentage is below 100 until the last
    chunk: checked by evaluating every pair. *)
Lemma small_uploads_checked :
  forallb before_last_below_100 (seq 0 200) = true.
Proof. vm_compute. reflexivity. Qed.

Lemma SFeqb_refl_100 : SFeqb (Number_of_Z 100) (Number_of_Z 100) = true.
Proof. vm_compute. reflexivity. Qed.

Lemma progress_percent_below_100 (k total : nat) :
  (total < 200)%nat -> (1 <= k < total)%nat ->
  progress_percent k total <> Number_of_Z 100.
Proof.
  intros Ht Hk Heq.
  pose proof small_uploads_checked as H.
  rewrite forallb_forall in H.
  specialize (H total). unfold before_last_below_100 in H.
  rewrite forallb_forall in H.
  assert (Hin : In total (seq 0 200)) by (apply in_seq; lia).
  specialize (H Hin k).
  assert (Hink : In k (seq 1 (total - 1))) by (apply in_seq; lia).
  specialize (H Hink). rewrite Heq, SFeqb_refl_100 in H. discriminate H.
Qed.

(** The bound is tight: with 200 chunks the report after chunk 199 carries
    [Math.round(99.5)], which is 100. *)
Example progress_percent_199_of_200 :
  progress_percent 199 200 = Number_of_Z 100.
Proof. vm_compute. reflexivity. Qed.

(** Rounding follows the doubles, not the exact quotient: 23 / 40 * 100 is
    57.49999999999999 and rounds to 57. *)
Example progress_percent_23_of_40 :
  progress_percent 23 40 = Number_of_Z 57.
Proof. vm_compute. reflexivity. Qed.
(** ** Observations on a log of the general shape *)

Section ShapedLog.

Variable url : string.
Variable file : File.
Variable headers : Headers.
Variable metadata : Value.
Variable chunks : list Blob.
Variable uid : Value.
Variable res0 : FetchResult.
Variable acks : list Response.
Variable tail : Log.

Let init := init_request url file headers metadata (List.length chunks).
Let request := chunk_request url headers chunks uid.
Let shaped : Log :=
  EvFetch init :: EvSettled res0
    :: acked_events url headers chunks uid 0 acks ++ tail.

Lemma shaped_progress_reports :
  progress_reports shaped
  = map (progress_record uid (List.length chunks)) (seq 1 (List.length acks))
    ++ progress_reports tail.
Proof. unfold shaped. cbn [progress_reports]. apply acked_progress_reports. Qed.

Lemma shaped_sent_requests :
  sent_requests shaped
  = init :: map request (seq 0 (List.length acks)) ++ sent_requests tail.
Proof.
  unfold shaped. cbn [sent_requests]. f_equal. apply acked_sent_requests.
Qed.

Lemma shaped_chunk_requests :
  chunk_requests url shaped
  = map request (seq 0 (List.length acks)) ++ chunk_requests url tail.
Proof.
  unfold chunk_requests. rewrite shaped_sent_requests. cbn [filter].
  unfold init. rewrite endpoint_init_chunk, filter_app.
  unfold request. now rewrite filter_chunk_requests.
Qed.

Lemma shaped_exchanges :
  exchanges shaped
  = (init, res0)
      :: combine (map request (seq 0 (List.length acks))) (map inr acks)
      ++ exchanges tail.
Proof.
  unfold shaped. cbn [exchanges]. f_equal. apply acked_exchanges.
Qed.

Lemma shaped_acked_chunks :
  Forall (fun r => ok r = true) acks ->
  acked_chunks url shaped
  = combine (map request (seq 0 (List.length acks))) (map inr acks)
    ++ acked_chunks url tail.
Proof.
  intro Hacks. unfold acked_chunks. rewrite shaped_exchanges. cbn [filter fst].
  unfold init. rewrite endpoint_init_chunk. cbn [andb].
  rewrite filter_app. unfold request. now rewrite filter_acked.
Qed.

Lemma shaped_errors_reported : errors_reported shaped = errors_reported tail.
Proof. unfold shaped. cbn [errors_reported]. apply acked_errors_reported. Qed.

Lemma shaped_successes_reported :
  successes_reported shaped = successes_reported tail.
Proof. unfold shaped. cbn [successes_reported]. apply acked_successes_reported. Qed.

Lemma shaped_serial : serial false shaped = serial false tail.
Proof. unfold shaped. cbn [serial negb andb]. apply acked_serial. Qed.

(** A chunk exchange that was not acknowledged can only be in the tail. *)
Lemma failed_chunk_exchange_in_tail (req : Request) (r : Response) :
  Forall (fun r => ok r = true) acks ->
  In (req, inr r) (exchanges shaped) ->
  to_endpoint url "/chunk" req = true -> ok r = false ->
  In (req, inr r) (exchanges tail).
Proof.
  intros Hacks Hin Hto Hok. rewrite shaped_exchanges in Hin.
  destruct Hin as [Heq | Hin].
  - injection Heq as <- _. unfold init in Hto.
    rewrite endpoint_init_chunk in Hto. discriminate Hto.
  - apply in_app_or in Hin. destruct Hin as [Hin | Hin]; [| exact Hin].
    apply in_combine_r in Hin. apply in_map_iff in Hin.
    destruct Hin as (r' & Heq & Hr'). injection Heq as ->.
    rewrite Forall_forall in Hacks. rewrite (Hacks r Hr') in Hok.
    discriminate Hok.
Qed.

(** An exchange with the complete endpoint can only be in the tail. *)
Lemma complete_exchange_in_tail (req : Request) (res : FetchResult) :
  In (req, res) (exchanges shaped) ->
  to_endpoint url "/complete" req = true ->
  In (req, res) (exchanges tail).
Proof.
  intros Hin Hto. rewrite shaped_exchanges in Hin.
  destruct Hin as [Heq | Hin].
  - injection Heq as <- _. unfold init in Hto.
    rewrite endpoint_init_complete in Hto. discriminate Hto.
  - apply in_app_or in Hin. destruct Hin as [Hin | Hin]; [| exact Hin].
    apply in_combine_l in Hin. apply in_map_iff in Hin.
    destruct Hin as (i & <- & _). unfold request in Hto.
    rewrite endpoint_chunk_complete in Hto. discriminate Hto.
Qed.

Lemma chunk_requests_NoDup (n : nat) : NoDup (init :: map request (seq 0 n)).
Proof.
  constructor.
  - intro Hin. apply in_map_iff in Hin. destruct Hin as (i & Heq & _).
    pose proof (endpoint_chunk_chunk url headers chunks uid i) as Hc.
    fold request in Hc. rewrite Heq in Hc. unfold init in Hc.
    rewrite endpoint_init_chunk in Hc. discriminate Hc.
  - generalize 0%nat. induction n as [| n IH]; intro a; [constructor |].
    cbn [seq map]. constructor; [| apply IH].
    intro Hin. apply in_map_iff in Hin. destruct Hin as (i & Heq & Hi).
    unfold request in Heq. apply chunk_request_index in Heq.
    apply in_seq in Hi. lia.
Qed.

End ShapedLog.

Lemma init_outcome_success (res : FetchResult) (uid : Value) :
  init_outcome res = inr uid ->
  exists r body,
    res = inr r /\ ok r = true /\ json r = inr body /\
    destructure "uploadId" body = inr uid.
Proof.
  destruct res as [e | r]; cbn; [discriminate |].
  destruct (ok r) eqn:Eok; [| discriminate].
  destruct (json r) as [e | body] eqn:Ejson; [discriminate |].
  intro H. exists r, body. auto.
Qed.

Lemma map_fst_combine {A B : Type} (l : list A) (l' : list B) :
  List.length l = List.length l' -> map fst (combine l l') = l.
Proof.
  revert l'. induction l as [| a l IH]; intros [| b l'] H;
    try reflexivity; try discriminate H.
  cbn [combine map fst]. f_equal. apply IH. now injection H.
Qed.

Section Claims.

Variable fetch : Network.
Variable fuel : nat.
Variable url : string.
Variable file : File.
Variable headers : Headers.
Variable metadata : Value.
Variable onProgress : Callback ProgressRecord.
Variable onError : Callback Exn.
Variable onSuccess : Callback Value.
Variable chunkSize : Z.
Variable chunks : list Blob.
Hypothesis Hchunks : createFileChunks fuel file chunkSize = Some chunks.

Variable c : Completion Value.
Variable log : Log.
Hypothesis Hrun :
  uploadFileInChunks fetch fuel url file headers metadata
    onProgress onError onSuccess chunkSize = Some (c, log).

(** The log of a run: the init exchange, the acknowledged chunks, each
    followed by its progress report, and a tail that holds no progress
    report, no acknowledged chunk, and at most one chunk request (the one
    that failed). *)
Lemma run_log_shape :
  exists res0 uid acks tail,
    log = EvFetch (init_request url file headers metadata (List.length chunks))
            :: EvSettled res0
            :: acked_events url headers chunks uid 0 acks ++ tail /\
    Forall (fun r => ok r = true) acks /\
    (List.length acks <= List.length chunks)%nat /\
    progress_reports tail = [] /\
    acked_chunks url tail = [] /\
    serial false tail = true /\
    (chunk_requests url tail = [] \/
     (List.length acks < List.length chunks)%nat /\
     chunk_requests url tail
     = [chunk_request url headers chunks uid (List.length acks)]) /\
    (forall req, In req (sent_requests tail) ->
       to_endpoint url "/complete" req = true ->
       List.length acks = List.length chunks) /\
    (forall v, c = Normal v -> List.length acks = List.length chunks) /\
    res0 = fetch [EvFetch (init_request url file headers metadata (List.length chunks))]
             (init_request url file headers metadata (List.length chunks)) /\
    (init_outcome res0 = inr uid \/ acks = [] /\ sent_requests tail = []).
Proof.
  pose proof Hrun as H. run_cases H Hc Hlog.
  1: exists res0, VUndefined, [].
  2-7: exists res0, uid, acks.
  all: eexists; split; [exact Hlog |].
  all: split; [first [exact Hacks | constructor] |].
  all: split; [cbn [List.length]; lia |].
  all: unfold acked_chunks, chunk_requests;
    cbn [progress_reports exchanges sent_requests filter fst snd is_ok serial
           negb andb].
  all: rewrite ?endpoint_chunk_chunk, ?endpoint_complete_chunk;
    cbn [andb filter is_ok].
  all: try rewrite Hok; cbn [andb filter].
  all: repeat (split; [reflexivity |]).
  all: split; [first [left; reflexivity | right; split; [lia | reflexivity]] |].
  all: split;
    [ cbn [In]; intros req Hin Hto; try lia;
      repeat (destruct Hin as [<- | Hin]); try contradiction;
      try (rewrite endpoint_chunk_complete in Hto; discriminate Hto) | ].
  all: split;
    [ intros v' Hv; rewrite Hv in Hc; try lia;
      try (destruct (onError _ _); discriminate Hc) | ].
  all: split; [exact Hres0 |].
  all: first [left; exact Hinit | right; split; reflexivity].
Qed.

(** C5.  In the successive calls of the progress callback during one run,
    [uploadedChunks] takes the values 1, 2, 3, ...: the first report carries
    1, every further report carries one more than the report before it, and
    there are exactly as many reports as chunk requests acknowledged with a
    success response (at most [totalChunks]). *)
Theorem uploadedChunks_increments_by_one :
  map uploadedChunks (progress_reports log)
  = seq 1 (List.length (acked_chunks url log)) /\
  (List.length (acked_chunks url log) <= List.length chunks)%nat /\
  (forall a, nth_error (progress_reports log) 0 = Some a ->
     uploadedChunks a = 1%nat) /\
  (forall k a b,
     nth_error (progress_reports log) k = Some a ->
     nth_error (progress_reports log) (S k) = Some b ->
     uploadedChunks b = S (uploadedChunks a)).
Proof.
  destruct run_log_shape
    as (res0 & uid & acks & tail & Hlog & Hacks & Hlen & Hprog & Hacked & _).
  assert (Hseq : map uploadedChunks (progress_reports log)
                 = seq 1 (List.length acks)).
  { rewrite Hlog, shaped_progress_reports, Hprog, app_nil_r.
    apply uploadedChunks_reports. }
  assert (Hcount : List.length (acked_chunks url log) = List.length acks).
  { rewrite Hlog, shaped_acked_chunks, Hacked, app_nil_r by exact Hacks.
    apply combine_acked_length. }
  rewrite Hcount. split; [exact Hseq |]. split; [exact Hlen |]. split.
  - intros a Ha.
    apply (map_nth_error uploadedChunks) in Ha. rewrite Hseq in Ha.
    rewrite nth_error_seq in Ha.
    destruct (0 <? List.length acks)%nat; [| discriminate Ha].
    now injection Ha as <-.
  - intros k a b Ha Hb.
    apply (map_nth_error uploadedChunks) in Ha, Hb. rewrite Hseq in Ha, Hb.
    eapply seq_nth_step; eassumption.
Qed.

(** C6.  The chunk requests of a run are the requests for the indices
    0, 1, ..., m - 1 in this order, each sent once, for some
    [m <= totalChunks]; [m] is [totalChunks] whenever the run gets as far as
    the complete request, and so whenever the function returns.  No request
    is sent while another is pending: at every point of the run at most one
    request is in flight.  And the requests are sent: when the init request
    yields an upload id that can be converted to a string, every chunk
    request of the run is answered with an ok response and the progress
    callback returns, the chunk requests of the run are exactly the requests
    for 0, 1, ..., totalChunks - 1, one per index, each of them
    acknowledged. *)
Theorem chunk_requests_ascending_one_in_flight :
  (exists uid m,
    (m <= List.length chunks)%nat /\
    chunk_requests url log
    = map (chunk_request url headers chunks uid) (seq 0 m) /\
    NoDup (chunk_requests url log) /\
    ((exists req, In req (sent_requests log) /\
                  to_endpoint url "/complete" req = true) ->
     m = List.length chunks) /\
    (forall v, c = Normal v -> m = List.length chunks) /\
    serial false log = true /\
    (forall pre post, log = pre ++ post -> in_flight pre = 0 \/ in_flight pre = 1)) /\
  (forall uid text,
     init_outcome
       (fetch [EvFetch (init_request url file headers metadata (List.length chunks))]
          (init_request url file headers metadata (List.length chunks)))
     = inr uid ->
     to_string uid = inr text ->
     (forall h p, onProgress h p = None) ->
     (forall req res,
        In (req, res) (exchanges log) -> to_endpoint url "/chunk" req = true ->
        exists r, res = inr r /\ ok r = true) ->
     chunk_requests url log
     = map (chunk_request url headers chunks uid) (seq 0 (List.length chunks)) /\
     map fst (acked_chunks url log) = chunk_requests url log /\
     List.length (chunk_requests url log) = List.length chunks).
Proof.
  split.
  {
    destruct run_log_shape
      as (res0 & uid & acks & tail & Hlog & Hacks & Hlen & _ & _ & Hserial
          & Htail & Hcomplete & Hnormal & _).
    assert (Hs : serial false log = true)
      by (rewrite Hlog, shaped_serial; exact Hserial).
    assert (Hsent : forall req,
               In req (sent_requests log) -> to_endpoint url "/complete" req = true ->
               In req (sent_requests tail)).
    { intros req Hin Hto. rewrite Hlog, shaped_sent_requests in Hin.
      destruct Hin as [<- | Hin].
      - rewrite endpoint_init_complete in Hto. discriminate Hto.
      - apply in_app_or in Hin. destruct Hin as [Hin | Hin]; [| exact Hin].
        apply in_map_iff in Hin. destruct Hin as (i & <- & _).
        rewrite endpoint_chunk_complete in Hto. discriminate Hto. }
    assert (Hflight : forall pre post, log = pre ++ post ->
                                       in_flight pre = 0 \/ in_flight pre = 1).
    { intros pre post Hsplit. rewrite Hsplit in Hs.
      pose proof (serial_prefix_in_flight pre post false Hs) as H.
      rewrite Z.add_0_r in H. exact H. }
    assert (Hnodup : forall m,
               NoDup (map (chunk_request url headers chunks uid) (seq 0 m))).
    { intro m.
      pose proof (chunk_requests_NoDup url file headers metadata chunks uid m) as H.
      now apply NoDup_cons_iff in H. }
    exists uid.
    destruct Htail as [Hnone | [Hlt Hone]].
    - assert (Hreqs : chunk_requests url log
                      = map (chunk_request url headers chunks uid)
                          (seq 0 (List.length acks)))
        by (rewrite Hlog, shaped_chunk_requests, Hnone; apply app_nil_r).
      exists (List.length acks). split; [exact Hlen |]. split; [exact Hreqs |].
      split; [rewrite Hreqs; apply Hnodup |].
      split; [| split; [exact Hnormal | split; [exact Hs | exact Hflight]]].
      intros (req & Hin & Hto). eapply Hcomplete; [| exact Hto].
      now apply Hsent.
    - assert (Hreqs : chunk_requests url log
                      = map (chunk_request url headers chunks uid)
                          (seq 0 (S (List.length acks))))
        by (rewrite Hlog, shaped_chunk_requests, Hone;
            now rewrite seq_S, map_app).
      exists (S (List.length acks)). split; [lia |]. split; [exact Hreqs |].
      split; [rewrite Hreqs; apply Hnodup |].
      split; [| split; [| split; [exact Hs | exact Hflight]]].
      + intros (req & Hin & Hto).
        assert (List.length acks = List.length chunks)
          by (eapply Hcomplete; [apply Hsent |]; eassumption).
        lia.
      + intros v Hv. specialize (Hnormal v Hv). lia.
  }
  intros uid0 text Hinit0 Htext Hreturns Hanswers.
  assert (Hall : chunk_requests url log
                 = map (chunk_request url headers chunks uid0)
                     (seq 0 (List.length chunks)) /\
                 map fst (acked_chunks url log) = chunk_requests url log).
  { pose proof Hrun as H. run_cases H Hc Hlog.
    (* the init request failed *)
    { rewrite <- Hres0 in Hinit0. rewrite Hinit0 in Hinit. discriminate Hinit. }
    (* the progress callback or the conversion of the upload id threw *)
    { rewrite <- Hres0 in Hinit0. rewrite Hinit0 in Hinit.
      injection Hinit as <-.
      destruct Hthrew as [(h & p & Hthrew) | Hthrew].
      - rewrite Hreturns in Hthrew. discriminate Hthrew.
      - rewrite Htext in Hthrew. discriminate Hthrew. }
    (* a chunk request was rejected by the transport *)
    { destruct (Hanswers (chunk_request url headers chunks uid (List.length acks))
                  (inl exn)) as (rbad & Heq & _);
        [| apply endpoint_chunk_chunk | discriminate Heq].
      rewrite Hlog, shaped_exchanges. right. apply in_or_app. right.
      cbn [exchanges]. now left. }
    (* a chunk request got a response that is not ok *)
    { destruct (Hanswers (chunk_request url headers chunks uid (List.length acks))
                  (inr rbad)) as (r' & Heq & Hok');
        [| apply endpoint_chunk_chunk |].
      - rewrite Hlog, shaped_exchanges. right. apply in_or_app. right.
        cbn [exchanges]. now left.
      - injection Heq as <-. rewrite Hok in Hok'. discriminate Hok'. }
    all: rewrite <- Hres0 in Hinit0; rewrite Hinit0 in Hinit;
      injection Hinit as <-.
    all: rewrite Hlog, shaped_chunk_requests, (shaped_acked_chunks _ _ _ _ _ _ _ _ _ Hacks).
    all: unfold chunk_requests, acked_chunks;
      cbn [sent_requests exchanges filter fst snd];
      rewrite ?endpoint_complete_chunk; cbn [filter andb];
      rewrite !app_nil_r, Hlen.
    all: split; [reflexivity |].
    all: rewrite map_fst_combine; [reflexivity |];
      now rewrite !length_map, length_seq. }
  destruct Hall as [Hreqs Hacked].
  split; [exact Hreqs |]. split; [exact Hacked |].
  now rewrite Hreqs, length_map, length_seq.
Qed.

(** C3.  If a chunk request got a response that is not ok, then it is the
    request for some index [i]; the requests sent in the whole run are the
    init request and the chunk requests for 0, ..., i, each once (so that no
    chunk above [i] is sent, chunk [i] is not sent again, and no request
    goes to the complete endpoint); the failed exchange is followed by the
    call of the error callback and by nothing else; the error passed to the
    callback and thrown (unless the callback throws itself) is
    [new Error(`Failed to upload chunk ${i}: ${statusText}`)], whose message
    determines [i]. *)
Theorem chunk_failure_stops_upload (req : Request) (r : Response) :
  In (req, inr r) (exchanges log) ->
  to_endpoint url "/chunk" req = true ->
  ok r = false ->
  exists uid i,
    let err := new_Error (chunk_error_message i (statusText r)) in
    (i < List.length chunks)%nat /\
    req = chunk_request url headers chunks uid i /\
    sent_requests log
    = init_request url file headers metadata (List.length chunks)
        :: map (chunk_request url headers chunks uid) (seq 0 (S i)) /\
    NoDup (sent_requests log) /\
    (forall j, (i < j)%nat ->
       ~ In (chunk_request url headers chunks uid j) (sent_requests log)) /\
    (forall req', In req' (sent_requests log) ->
       to_endpoint url "/complete" req' = false) /\
    (exists pre, log = pre ++ [EvFetch req; EvSettled (inr r); EvError err]) /\
    errors_reported log = [err] /\
    successes_reported log = [] /\
    (exists e, c = Abrupt e /\ (onError log err = None -> e = err)) /\
    (forall j s, chunk_error_message j s = chunk_error_message i (statusText r) ->
       j = i).
Proof.
  intros Hin Hto Hokr.
  pose proof Hrun as H. run_cases H Hc Hlog.
  { rewrite Hlog in Hin. cbn [exchanges In] in Hin.
    destruct Hin as [Heq | []]. injection Heq as <- _.
    rewrite endpoint_init_chunk in Hto. discriminate Hto. }
  all: match type of Hlog with
       | log = _ :: _ :: _ ++ ?t =>
           assert (Htail : In (req, inr r) (exchanges t))
             by (rewrite Hlog in Hin;
                 eapply failed_chunk_exchange_in_tail; eassumption)
       end.
  all: cbn [exchanges In] in Htail.
  all: try contradiction.
  all: destruct Htail as [Heq | []].
  all: try discriminate Heq.
  all: try (injection Heq as <- _;
            rewrite endpoint_complete_chunk in Hto; discriminate Hto).
  injection Heq as <- <-.
  exists uid, (List.length acks). cbn zeta.
  assert (Hsent : sent_requests log
                  = init_request url file headers metadata (List.length chunks)
                      :: map (chunk_request url headers chunks uid)
                           (seq 0 (S (List.length acks)))).
  { rewrite Hlog, shaped_sent_requests. cbn [sent_requests].
    now rewrite seq_S, map_app. }
  split; [exact Hj |]. split; [reflexivity |]. split; [exact Hsent |].
  split; [rewrite Hsent; apply chunk_requests_NoDup |].
  split.
  { intros j Hlt Hinj. rewrite Hsent in Hinj. destruct Hinj as [Heq | Hinj].
    - pose proof (endpoint_chunk_chunk url headers chunks uid j) as Hcj.
      rewrite <- Heq in Hcj.
      rewrite endpoint_init_chunk in Hcj. discriminate Hcj.
    - apply in_map_iff in Hinj. destruct Hinj as (k & Heq & Hk).
      apply chunk_request_index in Heq. apply in_seq in Hk. lia. }
  split.
  { intros req' Hin'. rewrite Hsent in Hin'. destruct Hin' as [<- | Hin'].
    - apply endpoint_init_complete.
    - apply in_map_iff in Hin'. destruct Hin' as (k & <- & _).
      apply endpoint_chunk_complete. }
  split.
  { eexists (_ :: _ :: _). rewrite Hlog. reflexivity. }
  split; [rewrite Hlog, shaped_errors_reported; reflexivity |].
  split; [rewrite Hlog, shaped_successes_reported; reflexivity |].
  split.
  { destruct (onError log _) as [e' |] eqn:Ecb.
    - exists e'. split; [exact Hc | discriminate].
    - eexists. split; [exact Hc | reflexivity]. }
  intros j s Hmsg. eapply chunk_error_message_index. exact Hmsg.
Qed.


(** C10.  If the complete request got an ok response whose body parsed to
    [v], and the success callback returns on [v], then the function returns
    [v], the success callback was called exactly once, with [v], right after
    that response, and the error callback was not called.  Conversely,
    whenever the function returns a value, it is the parsed body of an ok
    response to the complete request and these same facts hold. *)
Theorem success_reports_result_once :
  (forall req r v,
     In (req, inr r) (exchanges log) ->
     to_endpoint url "/complete" req = true ->
     ok r = true -> json r = inr v ->
     (forall h, onSuccess h v = None) ->
     c = Normal v /\
     successes_reported log = [v] /\
     errors_reported log = [] /\
     exists pre, log = pre ++ [EvFetch req; EvSettled (inr r); EvSuccess v]) /\
  (forall v,
     c = Normal v ->
     successes_reported log = [v] /\
     errors_reported log = [] /\
     exists pre req r,
       log = pre ++ [EvFetch req; EvSettled (inr r); EvSuccess v] /\
       to_endpoint url "/complete" req = true /\
       ok r = true /\ json r = inr v).
Proof.
  split.
  - intros req r v Hin Hto Hokr Hjson Hcb.
    pose proof Hrun as H. run_cases H Hc Hlog.
    { rewrite Hlog in Hin. cbn [exchanges In] in Hin.
      destruct Hin as [Heq | []]. injection Heq as <- _.
      rewrite endpoint_init_complete in Hto. discriminate Hto. }
    all: match type of Hlog with
         | log = _ :: _ :: _ ++ ?t =>
             assert (Htail : In (req, inr r) (exchanges t))
               by (rewrite Hlog in Hin;
                   eapply complete_exchange_in_tail; eassumption)
         end.
    all: cbn [exchanges In] in Htail.
    all: try contradiction.
    all: destruct Htail as [Heq | []].
    all: try (injection Heq as <- _;
              rewrite endpoint_chunk_complete in Hto; discriminate Hto).
    all: injection Heq as <- Hrc'; rewrite Hrc' in Hcomplete;
      cbn [complete_outcome] in Hcomplete; rewrite Hokr, Hjson in Hcomplete.
    + discriminate Hcomplete.
    + injection Hcomplete as <-. rewrite Hcb in Hsuccess. discriminate Hsuccess.
    + injection Hcomplete as <-.
      split; [exact Hc |].
      split; [rewrite Hlog, shaped_successes_reported; reflexivity |].
      split; [rewrite Hlog, shaped_errors_reported; reflexivity |].
      eexists (_ :: _ :: _). rewrite Hlog, Hrc'. reflexivity.
  - intros v0 Hv.
    pose proof Hrun as H. run_cases H Hc Hlog.
    all: rewrite Hv in Hc.
    all: try (destruct (onError _ _); discriminate Hc).
    injection Hc as ->.
    destruct rc as [e | r]; [discriminate Hcomplete |].
    cbn [complete_outcome] in Hcomplete.
    destruct (ok r) eqn:Hokr; [| discriminate Hcomplete].
    split; [rewrite Hlog, shaped_successes_reported; reflexivity |].
    split; [rewrite Hlog, shaped_errors_reported; reflexivity |].
    eexists (_ :: _ :: _), _, r.
    split; [rewrite Hlog; reflexivity |].
    split; [apply endpoint_complete_complete |].
    split; [exact Hokr | exact Hcomplete].
Qed.

(** C2 (as amended).  The log of a run is the init exchange followed by the
    acknowledged chunks and a tail.  Each acknowledged chunk is a request, a
    success response and, right after it, a call of the progress callback
    with the upload id, [totalChunks], the number of chunks acknowledged so
    far and the percentage [Math.round((uploadedChunks / totalChunks) * 100)];
    the tail holds no acknowledged chunk and no progress report.  A request
    to the complete endpoint is in the tail, after all [totalChunks] reports.
    The percentage of a report with [uploadedChunks = totalChunks] is 100;
    with fewer than 200 chunks no earlier report carries 100.  For a file of
    2.5 MiB and chunks of 1 MiB there are 3 chunks (1 MiB, 1 MiB, 0.5 MiB),
    and a run that returns reports 33, 67, 100. *)
Theorem progress_reported_after_each_ack :
  exists res0 uid acks tail,
    log = EvFetch (init_request url file headers metadata (List.length chunks))
            :: EvSettled res0
            :: acked_events url headers chunks uid 0 acks ++ tail /\
    Forall (fun r => ok r = true) acks /\
    (List.length acks <= List.length chunks)%nat /\
    progress_reports tail = [] /\
    acked_chunks url tail = [] /\
    progress_reports log
    = map (progress_record uid (List.length chunks)) (seq 1 (List.length acks)) /\
    (forall p, In p (progress_reports log) ->
       uploadId p = uid /\ totalChunks p = List.length chunks /\
       progress p = progress_percent (uploadedChunks p) (totalChunks p)) /\
    (forall req, In req (sent_requests log) ->
       to_endpoint url "/complete" req = true ->
       In req (sent_requests tail) /\ List.length acks = List.length chunks) /\
    (0 < Z.of_nat (List.length chunks) < 2 ^ 53 ->
     progress_percent (List.length chunks) (List.length chunks) = Number_of_Z 100) /\
    ((List.length chunks < 200)%nat ->
     forall p, In p (progress_reports log) ->
       progress p = Number_of_Z 100 -> uploadedChunks p = List.length chunks) /\
    (size file = 2621440 -> chunkSize = 1048576 ->
     map blob_size chunks = [1048576; 1048576; 524288] /\
     forall v, c = Normal v ->
       map progress (progress_reports log) = map Number_of_Z [33; 67; 100]).
Proof.
  destruct run_log_shape
    as (res0 & uid & acks & tail & Hlog & Hacks & Hlen & Hprog & Hacked & _
        & _ & Hcomplete & Hnormal & _).
  assert (Hreports : progress_reports log
                     = map (progress_record uid (List.length chunks))
                         (seq 1 (List.length acks))).
  { rewrite Hlog, shaped_progress_reports, Hprog. apply app_nil_r. }
  exists res0, uid, acks, tail.
  split; [exact Hlog |]. split; [exact Hacks |]. split; [exact Hlen |].
  split; [exact Hprog |]. split; [exact Hacked |]. split; [exact Hreports |].
  split.
  { intros p Hp. rewrite Hreports in Hp. apply in_map_iff in Hp.
    destruct Hp as (k & <- & _). repeat split. }
  split.
  { intros req Hin Hto.
    assert (Hin' : In req (sent_requests tail)).
    { rewrite Hlog, shaped_sent_requests in Hin.
      destruct Hin as [<- | Hin].
      - rewrite endpoint_init_complete in Hto. discriminate Hto.
      - apply in_app_or in Hin. destruct Hin as [Hin | Hin]; [| exact Hin].
        apply in_map_iff in Hin. destruct Hin as (i & <- & _).
        rewrite endpoint_chunk_complete in Hto. discriminate Hto. }
    split; [exact Hin' |]. eapply Hcomplete; eassumption. }
  split; [apply progress_percent_full |].
  split.
  { intros Hsmall p Hp H100. rewrite Hreports in Hp. apply in_map_iff in Hp.
    destruct Hp as (k & <- & Hk). apply in_seq in Hk.
    cbn [progress_record progress uploadedChunks] in *.
    destruct (Nat.eq_dec k (List.length chunks)) as [-> | Hne]; [reflexivity |].
    exfalso. apply (progress_percent_below_100 k (List.length chunks)); [| | exact H100]; lia. }
  intros Hsize Hchunk.
  assert (Hexp : chunks = expected_chunks 2621440 1048576).
  { rewrite <- Hsize, <- Hchunk.
    apply (createFileChunks_result file chunkSize fuel); [lia | lia | exact Hchunks]. }
  split; [rewrite Hexp; reflexivity |].
  intros v Hv. specialize (Hnormal v Hv).
  rewrite Hreports, Hnormal, Hexp. vm_compute. reflexivity.
Qed.

End Claims.

(** * abortChunkedUpload *)

(** C4 (as amended).  When the abort request fails -- the fetch is rejected,
    the response is not ok, or its body cannot be parsed -- the error is
    logged with [console.error] and then thrown again: the promise returned
    by [abortChunkedUpload] is rejected with it.  On success the parsed body
    is returned and nothing is logged. *)
Theorem abort_failure_is_logged_and_rethrown (fetch : Network) (url : string)
  (uploadId : Value) (headers : Headers) (log0 : Log) :
  let req := abort_request url headers uploadId in
  let sent := log0 ++ [EvFetch req] in
  let label := "Error aborting upload:"%string in
  (forall e,
     fetch sent req = inl e ->
     abortChunkedUpload fetch url uploadId headers log0
     = (Abrupt e, (sent ++ [EvSettled (inl e)]) ++ [EvConsoleError label e])) /\
  (forall r,
     fetch sent req = inr r -> ok r = false ->
     let err := new_Error (abort_error_message (statusText r)) in
     abortChunkedUpload fetch url uploadId headers log0
     = (Abrupt err, (sent ++ [EvSettled (inr r)]) ++ [EvConsoleError label err])) /\
  (forall r e,
     fetch sent req = inr r -> ok r = true -> json r = inl e ->
     abortChunkedUpload fetch url uploadId headers log0
     = (Abrupt e, (sent ++ [EvSettled (inr r)]) ++ [EvConsoleError label e])) /\
  (forall r v,
     fetch sent req = inr r -> ok r = true -> json r = inr v ->
     abortChunkedUpload fetch url uploadId headers log0
     = (Normal v, sent ++ [EvSettled (inr r)])).
Proof.
  cbn zeta. unfold abortChunkedUpload, try_catch.
  rewrite bind_run, await_fetch_run.
  repeat split.
  - intros e He. rewrite He. reflexivity.
  - intros r Hr Hok. rewrite Hr, Hok. reflexivity.
  - intros r e Hr Hok Hjson. rewrite Hr, Hok. cbn [negb await].
    rewrite Hjson. reflexivity.
  - intros r v Hr Hok Hjson. rewrite Hr, Hok. cbn [negb await].
    rewrite Hjson. reflexivity.
Qed.

Lemma abort_failure_is_logged_and_rethrown_witness :
  fst (abortChunkedUpload offline sample_url (VString "upload-1") sample_headers [])
  = Abrupt (ErrorObject "TypeError" "Failed to fetch") /\
  fst (abortChunkedUpload always_failing sample_url (VString "upload-1")
         sample_headers [])
  = Abrupt (new_Error "Failed to abort upload: Internal Server Error") /\
  fst (abortChunkedUpload always_ok sample_url (VString "upload-1")
         sample_headers [])
  = Normal (VObject [("uploadId"%string, VString "upload-1")]).
Proof.
  split; [| split].
  - destruct (abort_failure_is_logged_and_rethrown offline sample_url
                (VString "upload-1") sample_headers []) as (H & _).
    rewrite (H _ eq_refl). reflexivity.
  - destruct (abort_failure_is_logged_and_rethrown always_failing sample_url
                (VString "upload-1") sample_headers []) as (_ & H & _).
    rewrite (H _ eq_refl eq_refl). reflexivity.
  - destruct (abort_failure_is_logged_and_rethrown always_ok sample_url
                (VString "upload-1") sample_headers []) as (_ & _ & _ & H).
    rewrite (H _ _ eq_refl eq_refl eq_refl). reflexivity.
Defined.

(** Against C4 as stated: an abort request answered with a response that is
    not ok makes [abortChunkedUpload] complete abruptly; the failure is
    logged and reaches the caller. *)
Lemma abort_failure_reaches_caller :
  abortChunkedUpload always_failing sample_url (VString "upload-1")
    sample_headers []
  = (Abrupt (new_Error "Failed to abort upload: Internal Server Error"),
     [EvFetch (abort_request sample_url sample_headers (VString "upload-1"));
      EvSettled (inr error_response);
      EvConsoleError "Error aborting upload:"
        (new_Error "Failed to abort upload: Internal Server Error")]) /\
  forall v,
    fst (abortChunkedUpload always_failing sample_url (VString "upload-1")
           sample_headers [])
    <> Normal v.
Proof.
  split; [reflexivity |]. intros v H. discriminate H.
Qed.

(** * Concrete runs *)

Lemma sample_chunks_run :
  createFileChunks 4 sample_file DEFAULT_CHUNK_SIZE
  = Some (expected_chunks 2621440 1048576).
Proof. vm_compute. reflexivity. Qed.

Lemma sample_upload_run (fetch : Network) :
  sample_upload fetch <> None ->
  sample_upload fetch
  = Some (completion_of (sample_upload fetch), log_of (sample_upload fetch)).
Proof.
  intro H. unfold completion_of, log_of.
  destruct (sample_upload fetch) as [[c log] |]; [reflexivity | now destruct H].
Qed.

Lemma sample_upload_finishes (fetch : Network) : sample_upload fetch <> None.
Proof.
  unfold sample_upload, uploadFileInChunks.
  rewrite sample_chunks_run. discriminate.
Qed.

(** Against C2 as stated: uploading a file of 1000 MiB in chunks of 1 MiB to
    a server that accepts every request, the report made after chunk 999 of
    1000 already carries the percentage 100. *)
Lemma progress_100_before_last_chunk :
  exists p,
    In p (progress_reports (log_of large_upload)) /\
    progress p = Number_of_Z 100 /\
    totalChunks p = 1000%nat /\
    uploadedChunks p = 999%nat.
Proof.
  exists (mkProgress (VString "upload-1") 1000 999 (Number_of_Z 100)).
  split; [| repeat split].
  apply (nth_error_In _ 998). vm_compute. reflexivity.
Qed.

Lemma progress_reported_after_each_ack_witness :
  map progress (progress_reports (log_of (sample_upload always_ok)))
  = map Number_of_Z [33; 67; 100] /\
  progress_percent 3 3 = Number_of_Z 100.
Proof.
  destruct (progress_reported_after_each_ack always_ok 4 sample_url sample_file
              sample_headers (VObject []) noop noop noop DEFAULT_CHUNK_SIZE
              (expected_chunks 2621440 1048576) sample_chunks_run
              (completion_of (sample_upload always_ok))
              (log_of (sample_upload always_ok))
              (sample_upload_run always_ok (sample_upload_finishes always_ok)))
    as (res0 & uid & acks & tail & _ & _ & _ & _ & _ & _ & _ & _
        & Hfull & _ & Hscenario).
  split.
  - destruct (Hscenario eq_refl eq_refl) as [_ H].
    apply (H (VObject [("uploadId"%string, VString "upload-1")])).
    vm_compute. reflexivity.
  - apply Hfull. vm_compute. split; reflexivity.
Defined.

Lemma chunk_failure_stops_upload_witness :
  NoDup (sent_requests (log_of (sample_upload failing_second_chunk))) /\
  successes_reported (log_of (sample_upload failing_second_chunk)) = [] /\
  (forall req,
     In req (sent_requests (log_of (sample_upload failing_second_chunk))) ->
     to_endpoint sample_url "/complete" req = false).
Proof.
  destruct (chunk_failure_stops_upload failing_second_chunk 4 sample_url
              sample_file sample_headers (VObject []) noop noop noop
              DEFAULT_CHUNK_SIZE
              (expected_chunks 2621440 1048576) sample_chunks_run
              (completion_of (sample_upload failing_second_chunk))
              (log_of (sample_upload failing_second_chunk))
              (sample_upload_run failing_second_chunk
                 (sample_upload_finishes failing_second_chunk))
              (chunk_request sample_url sample_headers
                 (expected_chunks 2621440 1048576) (VString "upload-1") 1)
              error_response)
    as (uid & i & _ & _ & _ & Hnodup & _ & H & _ & _ & Hnone & _).
  - vm_compute. right; right; left. reflexivity.
  - reflexivity.
  - reflexivity.
  - split; [exact Hnodup | split; [exact Hnone | exact H]].
Defined.

Lemma uploadedChunks_increments_by_one_witness :
  map uploadedChunks
    (progress_reports (log_of (sample_upload failing_second_chunk)))
  = seq 1 (List.length
             (acked_chunks sample_url
                (log_of (sample_upload failing_second_chunk)))).
Proof.
  exact (proj1
           (uploadedChunks_increments_by_one failing_second_chunk 4 sample_url
              sample_file sample_headers (VObject []) noop noop noop
              DEFAULT_CHUNK_SIZE
              (expected_chunks 2621440 1048576) sample_chunks_run
              (completion_of (sample_upload failing_second_chunk))
              (log_of (sample_upload failing_second_chunk))
              (sample_upload_run failing_second_chunk
                 (sample_upload_finishes failing_second_chunk)))).
Defined.

Lemma chunk_requests_ascending_one_in_flight_witness :
  serial false (log_of (sample_upload always_ok)) = true /\
  (forall pre post,
     log_of (sample_upload always_ok) = pre ++ post ->
     in_flight pre = 0 \/ in_flight pre = 1) /\
  chunk_requests sample_url (log_of (sample_upload always_ok))
  = map (chunk_request sample_url sample_headers
           (expected_chunks 2621440 1048576) (VString "upload-1"))
      (seq 0 3) /\
  map fst (acked_chunks sample_url (log_of (sample_upload always_ok)))
  = chunk_requests sample_url (log_of (sample_upload always_ok)).
Proof.
  destruct (chunk_requests_ascending_one_in_flight always_ok 4 sample_url
              sample_file sample_headers (VObject []) noop noop noop
              DEFAULT_CHUNK_SIZE
              (expected_chunks 2621440 1048576) sample_chunks_run
              (completion_of (sample_upload always_ok))
              (log_of (sample_upload always_ok))
              (sample_upload_run always_ok (sample_upload_finishes always_ok)))
    as [(uid & m & _ & _ & _ & _ & _ & Hserial & Hflight) Hall].
  destruct (Hall (VString "upload-1") "upload-1"%string)
    as (Hreqs & Hacked & _).
  - reflexivity.
  - reflexivity.
  - intros h p. reflexivity.
  - intros req res Hin _. vm_compute in Hin.
    repeat (destruct Hin as [Heq | Hin];
            [injection Heq as _ <-; eexists; split; reflexivity |]).
    contradiction.
  - split; [exact Hserial |]. split; [exact Hflight |].
    split; [exact Hreqs | exact Hacked].
Defined.


Lemma success_reports_result_once_witness :
  completion_of (sample_upload always_ok)
  = Normal (VObject [("uploadId"%string, VString "upload-1")]) /\
  successes_reported (log_of (sample_upload always_ok))
  = [VObject [("uploadId"%string, VString "upload-1")]] /\
  errors_reported (log_of (sample_upload always_ok)) = [].
Proof.
  destruct (success_reports_result_once always_ok 4 sample_url
              sample_file sample_headers (VObject []) noop noop noop
              DEFAULT_CHUNK_SIZE
              (expected_chunks 2621440 1048576) sample_chunks_run
              (completion_of (sample_upload always_ok))
              (log_of (sample_upload always_ok))
              (sample_upload_run always_ok (sample_upload_finishes always_ok)))
    as (H & _).
  destruct (H (complete_request sample_url sample_headers (VString "upload-1"))
              ok_response
              (VObject [("uploadId"%string, VString "upload-1")]))
    as (Hc & Hs & He & _).
  - vm_compute. do 4 right. left. reflexivity.
  - reflexivity.
  - reflexivity.
  - reflexivity.
  - intro h. reflexivity.
  - split; [exact Hc | split; [exact Hs | exact He]].
Defined.

(** * Further properties of createFileChunks *)

Lemma contiguous_total_size (l : list Blob) (a b : Z) :
  contiguous a b l -> total_size l = b - a.
Proof.
  revert a. induction l as [| x l IH]; intros a H.
  - cbn in *. lia.
  - destruct H as [Hx Hl]. unfold total_size in *. cbn [map fold_right].
    rewrite (IH _ Hl). unfold blob_size. lia.
Qed.

(** X1.  The chunks of a file of size [S >= 0] cut with a chunk size
    [C > 0] have [S] bytes in total. *)
Theorem chunk_sizes_add_up (file : File) (C : Z) (fuel : nat)
  (chunks : list Blob) :
  0 <= size file -> 0 < C ->
  createFileChunks fuel file C = Some chunks ->
  total_size chunks = size file.
Proof.
  intros HS HC H.
  rewrite (createFileChunks_result file C fuel chunks HS HC H).
  rewrite (contiguous_total_size _ 0 (size file)); [lia |].
  now apply expected_contiguous.
Qed.

Lemma chunk_sizes_add_up_witness :
  total_size (expected_chunks 2621440 1048576) = 2621440.
Proof.
  apply (chunk_sizes_add_up sample_file DEFAULT_CHUNK_SIZE 4).
  - vm_compute. discriminate.
  - reflexivity.
  - vm_compute. reflexivity.
Defined.

(** The bytes between two offsets of a content. *)
Lemma segment_join (content : list Byte.byte) (a m b : nat) :
  (a <= m)%nat -> (m <= b)%nat ->
  firstn (m - a) (skipn a content) ++ firstn (b - m) (skipn m content)
  = firstn (b - a) (skipn a content).
Proof.
  intros Ham Hmb.
  rewrite <- (firstn_skipn (m - a) (firstn (b - a) (skipn a content))).
  rewrite firstn_firstn, skipn_firstn_comm, skipn_skipn.
  replace (Nat.min (m - a) (b - a)) with (m - a)%nat by lia.
  replace (b - a - (m - a))%nat with (b - m)%nat by lia.
  replace (m - a + a)%nat with m by lia.
  reflexivity.
Qed.

Lemma contiguous_bounds (l : list Blob) (a b : Z) :
  contiguous a b l -> Forall nonempty_range l -> a <= b.
Proof.
  revert a. induction l as [| x l IH]; intros a H Hne.
  - cbn in H. lia.
  - destruct H as [Hx Hl]. inversion Hne as [| ? ? Hx' Hl']; subst.
    specialize (IH _ Hl Hl'). unfold nonempty_range in Hx'. lia.
Qed.

Lemma contiguous_bytes (content : list Byte.byte) (l : list Blob) (a b : Z) :
  0 <= a -> contiguous a b l -> Forall nonempty_range l ->
  List.concat (map (blob_bytes content) l)
  = firstn (Z.to_nat b - Z.to_nat a) (skipn (Z.to_nat a) content).
Proof.
  revert a. induction l as [| x l IH]; intros a Ha H Hne.
  - cbn in *. subst b. now rewrite Nat.sub_diag.
  - destruct H as [Hx Hl]. inversion Hne as [| ? ? Hx' Hl']; subst.
    pose proof (contiguous_bounds _ _ _ Hl Hl') as Hle.
    unfold nonempty_range in Hx'.
    cbn [map List.concat]. rewrite (IH (blob_end x)) by (assumption || lia).
    unfold blob_bytes at 1.
    replace (Z.to_nat (blob_end x - blob_start x))
      with (Z.to_nat (blob_end x) - Z.to_nat (blob_start x))%nat by lia.
    apply segment_join; lia.
Qed.

(** X2.  Joining the bytes of the chunks in order gives back the content of
    the file: for a content of [S] bytes and a chunk size [C > 0], the
    concatenation of the chunks' bytes is the content. *)
Theorem chunks_reassemble (file : File) (content : list Byte.byte) (C : Z)
  (fuel : nat) (chunks : list Blob) :
  size file = Z.of_nat (List.length content) -> 0 < C ->
  createFileChunks fuel file C = Some chunks ->
  List.concat (map (blob_bytes content) chunks) = content.
Proof.
  intros Hsize HC H.
  assert (HS : 0 <= size file) by lia.
  rewrite (createFileChunks_result file C fuel chunks HS HC H).
  rewrite (contiguous_bytes content _ 0 (size file));
    [| lia | now apply expected_contiguous | now apply expected_nonempty].
  rewrite Hsize, Nat2Z.id. cbn [Z.to_nat skipn]. rewrite Nat.sub_0_r.
  apply firstn_all.
Qed.

Lemma chunks_reassemble_witness :
  List.concat (map (blob_bytes sample_content)
            [mkBlob 0 3; mkBlob 3 6; mkBlob 6 7])
  = sample_content.
Proof.
  apply (chunks_reassemble (mkFile "hello.txt" 7 "text/plain") sample_content 3 4).
  - reflexivity.
  - reflexivity.
  - vm_compute. reflexivity.
Defined.

(** X3.  The chunk at index [i] is the byte range from [i * C] to
    [min ((i + 1) * C) S]: its offset in the file follows from its index. *)
Theorem chunk_offset_from_index (file : File) (C : Z) (fuel : nat)
  (chunks : list Blob) (i : nat) (b : Blob) :
  0 <= size file -> 0 < C ->
  createFileChunks fuel file C = Some chunks ->
  nth_error chunks i = Some b ->
  blob_start b = Z.of_nat i * C /\
  blob_end b = Z.min ((Z.of_nat i + 1) * C) (size file) /\
  Z.of_nat i * C < size file.
Proof.
  intros HS HC H Hnth.
  rewrite (createFileChunks_result file C fuel chunks HS HC H) in Hnth.
  destruct (expected_nth file C i b Hnth) as [Hi ->].
  split; [reflexivity |]. split; [reflexivity |].
  now apply (index_lt_count file C HC HS).
Qed.

Lemma chunk_offset_from_index_witness :
  blob_start (mkBlob 2097152 2621440) = 2 * 1048576 /\
  blob_end (mkBlob 2097152 2621440) = Z.min ((2 + 1) * 1048576) 2621440 /\
  2 * 1048576 < 2621440.
Proof.
  apply (chunk_offset_from_index sample_file DEFAULT_CHUNK_SIZE 4
           (expected_chunks 2621440 1048576) 2).
  - vm_compute. discriminate.
  - reflexivity.
  - vm_compute. reflexivity.
  - reflexivity.
Defined.

(** X4.  A non-empty file that is not larger than the chunk size gives one
    chunk, the whole file. *)
Theorem small_file_single_chunk (file : File) (C : Z) (fuel : nat)
  (chunks : list Blob) :
  0 < size file <= C ->
  createFileChunks fuel file C = Some chunks ->
  chunks = [mkBlob 0 (size file)].
Proof.
  intros HS H.
  rewrite (createFileChunks_result file C fuel chunks) by (assumption || lia).
  unfold expected_chunks, ceil_div.
  replace ((size file + C - 1) / C) with 1.
  - change (Z.to_nat 1) with 1%nat. cbn [seq map]. unfold nth_range.
    change (Z.of_nat 0) with 0. f_equal. f_equal; lia.
  - apply Z.div_unique with (r := size file - 1); lia.
Qed.

Lemma small_file_single_chunk_witness :
  expected_chunks 2621440 4194304 = [mkBlob 0 (size sample_file)].
Proof.
  apply (small_file_single_chunk sample_file 4194304 2).
  - vm_compute. split; [reflexivity | discriminate].
  - vm_compute. reflexivity.
Defined.

(** X5.  When the file size is a multiple [k * C] of the chunk size, there
    are exactly [k] chunks and every one of them, the last included, has
    [C] bytes. *)
Theorem exact_multiple_full_chunks (file : File) (C : Z) (k fuel : nat)
  (chunks : list Blob) :
  0 < C -> size file = Z.of_nat k * C ->
  createFileChunks fuel file C = Some chunks ->
  List.length chunks = k /\ Forall (fun b => blob_size b = C) chunks.
Proof.
  intros HC Hsize H.
  assert (HS : 0 <= size file) by nia.
  rewrite (createFileChunks_result file C fuel chunks HS HC H).
  assert (Hcount : Z.to_nat (ceil_div (size file) C) = k).
  { unfold ceil_div. rewrite Hsize.
    replace (Z.of_nat k * C + C - 1) with (Z.of_nat k * C + (C - 1)) by lia.
    rewrite Z.div_add_l by lia. rewrite Z.div_small by lia. lia. }
  split.
  - rewrite (expected_length file C). exact Hcount.
  - apply Forall_forall. intros b Hb.
    apply In_nth_error in Hb. destruct Hb as [i Hi].
    destruct (expected_nth file C i b Hi) as [Hlt ->].
    rewrite Hcount in Hlt. unfold blob_size, nth_range. cbn [blob_start blob_end].
    rewrite Hsize. nia.
Qed.

Lemma exact_multiple_full_chunks_witness :
  List.length (expected_chunks 1048576000 1048576) = 1000%nat /\
  Forall (fun b => blob_size b = DEFAULT_CHUNK_SIZE)
    (expected_chunks 1048576000 1048576).
Proof.
  apply (exact_multiple_full_chunks large_file DEFAULT_CHUNK_SIZE 1000 1001).
  - reflexivity.
  - reflexivity.
  - vm_compute. reflexivity.
Defined.

(** An empty file gives no chunk, whatever the chunk size (zero and
    negative sizes included): the loop body is never entered. *)
Lemma empty_file_no_chunks (file : File) (C : Z) (fuel : nat) :
  size file = 0 -> createFileChunks (S fuel) file C = Some [].
Proof.
  intro H. unfold createFileChunks. cbn [chunk_loop].
  unfold chunk_loop_cond. cbn [snd]. rewrite H. reflexivity.
Qed.

(** * Further properties of uploadFileInChunks *)

(** ** Headers: [{ ...headers, 'Content-Type': 'application/json' }] *)

Lemma lookup_set_same {A : Type} (k : string) (v : A) (props : list (string * A)) :
  lookup_prop k (set_prop k v props) = Some v.
Proof.
  induction props as [| [k' v'] props IH]; cbn.
  - now rewrite String.eqb_refl.
  - destruct (String.eqb k' k) eqn:E; cbn.
    + now rewrite String.eqb_refl.
    + now rewrite E.
Qed.

Lemma lookup_set_other {A : Type} (k k0 : string) (v : A)
  (props : list (string * A)) :
  k0 <> k -> lookup_prop k0 (set_prop k v props) = lookup_prop k0 props.
Proof.
  intro Hne. induction props as [| [k' v'] props IH]; cbn.
  - destruct (String.eqb k k0) eqn:E; [| reflexivity].
    apply String.eqb_eq in E. now destruct Hne.
  - destruct (String.eqb k' k) eqn:E; cbn.
    + apply String.eqb_eq in E. subst k'.
      destruct (String.eqb k k0) eqn:E0; [| reflexivity].
      apply String.eqb_eq in E0. now destruct Hne.
    + now rewrite IH.
Qed.

Lemma sent_requests_app (l1 l2 : Log) :
  sent_requests (l1 ++ l2) = sent_requests l1 ++ sent_requests l2.
Proof.
  induction l1 as [| ev l1 IH]; [reflexivity |].
  destruct ev; cbn [app sent_requests]; now rewrite IH.
Qed.

(** The requests of an upload without chunks: the init request and, when it
    yields an upload id, the complete request. *)
Lemma upload_without_chunks (fetch : Network) (url : string) (file : File)
  (headers : Headers) (metadata : Value)
  (onProgress : Callback ProgressRecord) (onError : Callback Exn)
  (onSuccess : Callback Value) :
  let init := init_request url file headers metadata 0 in
  sent_requests
    (snd (try_catch
            (upload_try fetch url file headers metadata onProgress onSuccess [])
            (upload_catch onError) []))
  = match init_outcome (fetch [EvFetch init] init) with
    | inl _ => [init]
    | inr uid => [init; complete_request url headers uid]
    end.
Proof.
  cbn zeta. unfold try_catch, upload_try. cbn [List.length].
  rewrite bind_run, await_fetch_run. cbn [app init_outcome].
  assert (Hcatch : forall (e : Exn) (l : Log),
             sent_requests (snd (upload_catch onError e l)) = sent_requests l).
  { intros e l. unfold upload_catch, call, bind, throw.
    destruct (onError _ _); cbn [snd]; rewrite sent_requests_app;
      cbn [sent_requests]; apply app_nil_r. }
  destruct (fetch _ _) as [e0 | r0]; cbn [init_outcome];
    [now rewrite Hcatch |].
  destruct (ok r0); cbn [negb]; [| unfold throw at 1; now rewrite Hcatch].
  rewrite bind_run.
  destruct (json r0) as [e1 | body]; cbn [await]; [now rewrite Hcatch |].
  rewrite bind_run.
  destruct (destructure "uploadId" body) as [e2 | uid]; cbn [await];
    [now rewrite Hcatch |].
  rewrite bind_run. unfold for_loop. cbn [Nat.sub for_loop_from ret].
  rewrite bind_run, await_fetch_run. cbn [app].
  destruct (fetch _ _) as [e3 | rc]; [now rewrite Hcatch |].
  destruct (ok rc); cbn [negb]; [| unfold throw at 1; now rewrite Hcatch].
  rewrite bind_run.
  destruct (json rc) as [e4 | v]; cbn [await]; [now rewrite Hcatch |].
  rewrite bind_run. unfold call at 1. cbn [app].
  destruct (onSuccess _ v); [now rewrite Hcatch | reflexivity].
Qed.

(** The [try] block when the upload id cannot be converted to a string and
    there is at least one chunk: [append] throws in the first iteration,
    before any chunk request. *)
Lemma upload_try_unconvertible (fetch : Network) (url : string) (file : File)
  (headers : Headers) (metadata : Value)
  (onProgress : Callback ProgressRecord) (onSuccess : Callback Value)
  (chunks : list Blob) (uid : Value) (e : Exn) :
  let init := init_request url file headers metadata (List.length chunks) in
  init_outcome (fetch [EvFetch init] init) = inr uid ->
  to_string uid = inl e -> chunks <> [] ->
  upload_try fetch url file headers metadata onProgress onSuccess chunks []
  = (Abrupt e, [EvFetch init; EvSettled (fetch [EvFetch init] init)]).
Proof.
  cbn zeta. intros Hinit Htext Hne. unfold upload_try.
  rewrite bind_run, await_fetch_run. cbn [app].
  destruct (fetch _ _) as [e0 | r0]; cbn [init_outcome] in Hinit;
    [discriminate Hinit |].
  destruct (ok r0); cbn [negb]; [| discriminate Hinit].
  rewrite bind_run.
  destruct (json r0) as [e1 | body]; cbn [await]; [discriminate Hinit |].
  rewrite bind_run. rewrite Hinit. cbn [await].
  rewrite bind_run. unfold for_loop.
  destruct chunks as [| b0 rest]; [now destruct Hne |].
  cbn [List.length Nat.sub for_loop_from].
  change (0 <? S (List.length rest))%nat with true. cbn iota.
  rewrite bind_run. unfold upload_chunk at 1.
  rewrite bind_run, Htext. reflexivity.
Qed.

Section MoreUploadProperties.

Variable fetch : Network.
Variable fuel : nat.
Variable url : string.
Variable file : File.
Variable headers : Headers.
Variable metadata : Value.
Variable onProgress : Callback ProgressRecord.
Variable onError : Callback Exn.
Variable onSuccess : Callback Value.
Variable chunkSize : Z.
Variable chunks : list Blob.
Hypothesis Hchunks : createFileChunks fuel file chunkSize = Some chunks.

Variable c : Completion Value.
Variable log : Log.
Hypothesis Hrun :
  uploadFileInChunks fetch fuel url file headers metadata
    onProgress onError onSuccess chunkSize = Some (c, log).

(** The requests of a run: the init request, the chunk requests for
    0, ..., k - 1, and then nothing, the request for chunk [k] (which
    failed), or the complete request. *)
Lemma run_sent_requests :
  exists uid k rest,
    sent_requests log
    = init_request url file headers metadata (List.length chunks)
        :: map (chunk_request url headers chunks uid) (seq 0 k) ++ rest /\
    (k <= List.length chunks)%nat /\
    (rest = [] \/
     (k < List.length chunks)%nat /\
     rest = [chunk_request url headers chunks uid k] \/
     k = List.length chunks /\ rest = [complete_request url headers uid]) /\
    (init_outcome
       (fetch [EvFetch (init_request url file headers metadata (List.length chunks))]
          (init_request url file headers metadata (List.length chunks)))
     = inr uid \/
     k = 0%nat /\ rest = []).
Proof.
  pose proof Hrun as H. run_cases H Hc Hlog.
  1: exists VUndefined, 0%nat, [].
  2-7: exists uid, (List.length acks).
  2-7: eexists.
  all: split;
    [ rewrite Hlog; first [reflexivity | rewrite shaped_sent_requests; reflexivity] | ].
  all: split; [cbn [List.length]; lia |].
  all: cbn [sent_requests].
  all: split;
    [ first [ left; reflexivity
            | right; left; split; [lia | reflexivity]
            | right; right; split; [lia | reflexivity] ] | ].
  all: first [ left; rewrite <- Hres0; exact Hinit
             | right; split; reflexivity ].
Qed.

(** When the statements before the loop throw, the run is the init
    exchange followed by the call of the error callback. *)
Lemma run_init_failed (e : Exn) :
  init_outcome
    (fetch [EvFetch (init_request url file headers metadata (List.length chunks))]
       (init_request url file headers metadata (List.length chunks)))
  = inl e ->
  log = [EvFetch (init_request url file headers metadata (List.length chunks));
         EvSettled
           (fetch [EvFetch (init_request url file headers metadata (List.length chunks))]
              (init_request url file headers metadata (List.length chunks)));
         EvError e] /\
  c = match onError log e with
      | Some e' => Abrupt e'
      | None => Abrupt e
      end.
Proof.
  intro Hout.
  pose proof Hrun as H. run_cases H Hc Hlog.
  all: rewrite <- Hres0 in Hout; rewrite Hout in Hinit; try discriminate Hinit.
  injection Hinit as <-. rewrite <- Hres0. split; [exact Hlog | exact Hc].
Qed.

(** X6.  Uploading an empty file sends no chunk request and never calls
    the progress callback: the init request declares 0 chunks; when it
    fails it is the only request, and when it yields an upload id it is
    followed directly by the complete request carrying that id, and by
    nothing else. *)
Theorem empty_file_upload :
  size file = 0 ->
  chunks = [] /\
  chunk_requests url log = [] /\
  progress_reports log = [] /\
  (forall e,
     init_outcome
       (fetch [EvFetch (init_request url file headers metadata 0)]
          (init_request url file headers metadata 0)) = inl e ->
     sent_requests log = [init_request url file headers metadata 0]) /\
  (forall uid,
     init_outcome
       (fetch [EvFetch (init_request url file headers metadata 0)]
          (init_request url file headers metadata 0)) = inr uid ->
     sent_requests log
     = [init_request url file headers metadata 0;
        complete_request url headers uid]).
Proof.
  intro Hsize.
  assert (Hnil : chunks = []).
  { destruct fuel as [| fuel']; [discriminate Hchunks |].
    rewrite (empty_file_no_chunks file chunkSize fuel' Hsize) in Hchunks.
    now injection Hchunks as <-. }
  split; [exact Hnil |].
  destruct (run_log_shape fetch fuel url file headers metadata onProgress
              onError onSuccess chunkSize chunks Hchunks c log Hrun)
    as (res0 & uid' & acks & tail & Hlog & _ & Hlen & Hprog & _).
  assert (Hsent : sent_requests log
                  = match init_outcome
                            (fetch [EvFetch (init_request url file headers metadata 0)]
                               (init_request url file headers metadata 0)) with
                    | inl _ => [init_request url file headers metadata 0]
                    | inr uid => [init_request url file headers metadata 0;
                                  complete_request url headers uid]
                    end).
  { pose proof Hrun as H. unfold uploadFileInChunks in H.
    rewrite Hchunks, Hnil in H. injection H as H.
    rewrite <- (upload_without_chunks fetch url file headers metadata
                  onProgress onError onSuccess).
    now rewrite H. }
  rewrite Hnil in *. cbn [List.length] in *.
  assert (acks = []) by (destruct acks; [reflexivity | cbn in Hlen; lia]).
  subst acks.
  split.
  { unfold chunk_requests. rewrite Hsent.
    destruct (init_outcome _); cbn [filter];
      rewrite endpoint_init_chunk, ?endpoint_complete_chunk; reflexivity. }
  split.
  { rewrite Hlog. cbn [acked_events app progress_reports]. exact Hprog. }
  split.
  - intros e He. now rewrite Hsent, He.
  - intros uid He. now rewrite Hsent, He.
Qed.

(** X9.  Every request of a run is a POST that forwards the caller's
    headers: chunk requests carry them unchanged (no Content-Type is added
    for FormData bodies), init and complete requests carry them with
    Content-Type set to application/json, whatever the caller had put
    there. *)
Theorem requests_forward_headers (req : Request) :
  In req (sent_requests log) ->
  req_method req = "POST"%string /\
  (forall k, k <> "Content-Type"%string ->
     lookup_prop k (req_headers req) = lookup_prop k headers) /\
  (to_endpoint url "/chunk" req = true -> req_headers req = headers) /\
  (to_endpoint url "/chunk" req = false ->
   lookup_prop "Content-Type" (req_headers req)
   = Some "application/json"%string).
Proof.
  intro Hin.
  destruct run_sent_requests as (uid & k & rest & Hsent & _ & Hrest & _).
  assert (Hkind : req = init_request url file headers metadata (List.length chunks)
                  \/ (exists i, req = chunk_request url headers chunks uid i)
                  \/ req = complete_request url headers uid).
  { rewrite Hsent in Hin. destruct Hin as [<- | Hin]; [now left |].
    apply in_app_or in Hin. destruct Hin as [Hin | Hin].
    - apply in_map_iff in Hin. destruct Hin as (i & <- & _).
      right; left. now exists i.
    - destruct Hrest as [-> | [[_ ->] | [_ ->]]].
      + contradiction.
      + destruct Hin as [<- | []]. right; left. now exists k.
      + destruct Hin as [<- | []]. now right; right. }
  destruct Hkind as [-> | [[i ->] | ->]].
  - split; [reflexivity |]. split; [| split].
    + intros k0 Hk0. cbn [req_headers init_request]. unfold json_headers.
      now apply lookup_set_other.
    + intro H. rewrite endpoint_init_chunk in H. discriminate H.
    + intros _. cbn [req_headers init_request]. apply lookup_set_same.
  - split; [reflexivity |]. split; [| split].
    + intros k0 _. reflexivity.
    + intros _. reflexivity.
    + intro H. rewrite endpoint_chunk_chunk in H. discriminate H.
  - split; [reflexivity |]. split; [| split].
    + intros k0 Hk0. cbn [req_headers complete_request]. unfold json_headers.
      now apply lookup_set_other.
    + intro H. rewrite endpoint_complete_chunk in H. discriminate H.
    + intros _. cbn [req_headers complete_request]. apply lookup_set_same.
Qed.

(** X10.  Whenever the function throws, the error callback has been called
    exactly once, it is the last thing that happened, and the exception
    thrown is the one passed to the callback, unless the callback threw
    itself, in which case it is the callback's. *)
Theorem failure_reported_once (e : Exn) :
  c = Abrupt e ->
  exists e0 pre,
    log = pre ++ [EvError e0] /\
    errors_reported log = [e0] /\
    (onError log e0 = None -> e = e0) /\
    (forall e', onError log e0 = Some e' -> e = e').
Proof.
  intro Habrupt.
  pose proof Hrun as H. run_cases H Hc Hlog.
  7: { rewrite Habrupt in Hc. discriminate Hc. }
  all: match type of Hc with
       | c = match onError log ?x with _ => _ end => exists x
       end.
  1: exists [EvFetch (init_request url file headers metadata (List.length chunks));
             EvSettled res0].
  2-6: match type of Hlog with
       | log = ?a :: ?b :: ?m ++ ?t =>
           let t' := eval cbn in (removelast t) in
           exists (a :: b :: m ++ t')
       end.
  all: split;
    [ rewrite Hlog; cbn [app]; rewrite <- ?app_assoc; reflexivity | ].
  all: split;
    [ rewrite Hlog;
      first [reflexivity | rewrite shaped_errors_reported; reflexivity] | ].
  all: rewrite Habrupt in Hc.
  all: split; [intro Hcb | intros e' Hcb].
  all: rewrite Hcb in Hc; now injection Hc.
Qed.

(** A chunk exchange that the transport rejected can only be in the tail of
    the log. *)
Lemma rejected_exchange_in_tail (res0 : FetchResult) (uid : Value)
  (acks : list Response) (tail : Log) (req : Request) (e : Exn) :
  In (req, inl e)
    (exchanges
       (EvFetch (init_request url file headers metadata (List.length chunks))
          :: EvSettled res0
          :: acked_events url headers chunks uid 0 acks ++ tail)) ->
  to_endpoint url "/chunk" req = true ->
  In (req, inl e) (exchanges tail).
Proof.
  intros Hin Hto. rewrite shaped_exchanges in Hin.
  destruct Hin as [Heq | Hin].
  - injection Heq as <- _. rewrite endpoint_init_chunk in Hto. discriminate Hto.
  - apply in_app_or in Hin. destruct Hin as [Hin | Hin]; [| exact Hin].
    apply in_combine_r in Hin. apply in_map_iff in Hin.
    destruct Hin as (r' & Heq & _). discriminate Heq.
Qed.

(** X11.  If the fetch of a chunk request is rejected (a transport failure),
    the rejection itself, which does not name the chunk, is passed to the
    error callback and thrown; the failed fetch is the last request of the
    run, so no further chunk and no complete request is sent. *)
Theorem chunk_transport_failure_stops_upload (req : Request) (e : Exn) :
  In (req, inl e) (exchanges log) ->
  to_endpoint url "/chunk" req = true ->
  (exists pre, log = pre ++ [EvFetch req; EvSettled (inl e); EvError e]) /\
  errors_reported log = [e] /\
  successes_reported log = [] /\
  (exists e', c = Abrupt e' /\ (onError log e = None -> e' = e)) /\
  (forall req', In req' (sent_requests log) ->
     to_endpoint url "/complete" req' = false).
Proof.
  intros Hin Hto.
  pose proof Hrun as H. run_cases H Hc Hlog.
  { rewrite Hlog in Hin. cbn [exchanges In] in Hin.
    destruct Hin as [Heq | []]. injection Heq as <- _.
    rewrite endpoint_init_chunk in Hto. discriminate Hto. }
  all: match type of Hlog with
       | log = _ :: _ :: _ ++ ?t =>
           assert (Htail : In (req, inl e) (exchanges t))
             by (rewrite Hlog in Hin;
                 eapply rejected_exchange_in_tail; eassumption)
       end.
  all: cbn [exchanges In] in Htail.
  all: try contradiction.
  all: destruct Htail as [Heq | []].
  all: try discriminate Heq.
  all: try (injection Heq as <- _;
            rewrite endpoint_complete_chunk in Hto; discriminate Hto).
  injection Heq as <- <-.
  split; [eexists (_ :: _ :: _); rewrite Hlog; reflexivity |].
  split; [rewrite Hlog, shaped_errors_reported; reflexivity |].
  split; [rewrite Hlog, shaped_successes_reported; reflexivity |].
  split.
  { destruct (onError log _) as [e' |] eqn:Ecb.
    - exists e'. split; [exact Hc | discriminate].
    - eexists. split; [exact Hc | reflexivity]. }
  intros req' Hin'. rewrite Hlog, shaped_sent_requests in Hin'.
  cbn [sent_requests] in Hin'.
  destruct Hin' as [<- | Hin']; [apply endpoint_init_complete |].
  apply in_app_or in Hin'. destruct Hin' as [Hin' | [<- | []]].
  - apply in_map_iff in Hin'. destruct Hin' as (i & <- & _).
    apply endpoint_chunk_complete.
  - apply endpoint_chunk_complete.
Qed.

(** X12.  If the complete request gets a response that is not ok, every
    chunk had been acknowledged before, the success callback is not called,
    and [new Error(`Failed to complete upload: ${statusText}`)] is passed to
    the error callback and thrown. *)
Theorem complete_failure_reported (req : Request) (r : Response) :
  In (req, inr r) (exchanges log) ->
  to_endpoint url "/complete" req = true ->
  ok r = false ->
  let err := new_Error (complete_error_message (statusText r)) in
  (exists pre, log = pre ++ [EvFetch req; EvSettled (inr r); EvError err]) /\
  errors_reported log = [err] /\
  successes_reported log = [] /\
  List.length (acked_chunks url log) = List.length chunks /\
  (exists e', c = Abrupt e' /\ (onError log err = None -> e' = err)).
Proof.
  intros Hin Hto Hokr. cbn zeta.
  pose proof Hrun as H. run_cases H Hc Hlog.
  { rewrite Hlog in Hin. cbn [exchanges In] in Hin.
    destruct Hin as [Heq | []]. injection Heq as <- _.
    rewrite endpoint_init_complete in Hto. discriminate Hto. }
  all: match type of Hlog with
       | log = _ :: _ :: _ ++ ?t =>
           assert (Htail : In (req, inr r) (exchanges t))
             by (rewrite Hlog in Hin;
                 eapply complete_exchange_in_tail; eassumption)
       end.
  all: cbn [exchanges In] in Htail.
  all: try contradiction.
  all: destruct Htail as [Heq | []].
  all: try (injection Heq as <- _;
            rewrite endpoint_chunk_complete in Hto; discriminate Hto).
  all: injection Heq as <- Hrc'; rewrite Hrc' in Hcomplete;
    cbn [complete_outcome] in Hcomplete; rewrite Hokr in Hcomplete;
    try discriminate Hcomplete.
  injection Hcomplete as <-. rewrite Hrc' in *.
  split; [eexists (_ :: _ :: _); rewrite Hlog; reflexivity |].
  split; [rewrite Hlog, shaped_errors_reported; reflexivity |].
  split; [rewrite Hlog, shaped_successes_reported; reflexivity |].
  split.
  { rewrite Hlog, shaped_acked_chunks by exact Hacks.
    unfold acked_chunks at 1. cbn [exchanges filter fst snd is_ok].
    rewrite endpoint_complete_chunk. cbn [andb]. rewrite app_nil_r.
    rewrite combine_acked_length. exact Hlen. }
  destruct (onError log _) as [e' |] eqn:Ecb.
  - exists e'. split; [exact Hc | discriminate].
  - eexists. split; [exact Hc | reflexivity].
Qed.

(** X13.  The success callback runs inside the [try] block: if it throws
    after a successful complete request, the exception is passed to the
    error callback and the function throws, although the upload was
    completed; both callbacks have then been called. *)
Theorem throwing_success_callback_reported (req : Request) (r : Response)
  (v : Value) (e : Exn) :
  In (req, inr r) (exchanges log) ->
  to_endpoint url "/complete" req = true ->
  ok r = true -> json r = inr v ->
  (forall h, onSuccess h v = Some e) ->
  (exists pre, log = pre ++ [EvSuccess v; EvError e]) /\
  successes_reported log = [v] /\
  errors_reported log = [e] /\
  (exists e', c = Abrupt e' /\ (onError log e = None -> e' = e)).
Proof.
  intros Hin Hto Hokr Hjson Hcb.
  pose proof Hrun as H. run_cases H Hc Hlog.
  { rewrite Hlog in Hin. cbn [exchanges In] in Hin.
    destruct Hin as [Heq | []]. injection Heq as <- _.
    rewrite endpoint_init_complete in Hto. discriminate Hto. }
  all: match type of Hlog with
       | log = _ :: _ :: _ ++ ?t =>
           assert (Htail : In (req, inr r) (exchanges t))
             by (rewrite Hlog in Hin;
                 eapply complete_exchange_in_tail; eassumption)
       end.
  all: cbn [exchanges In] in Htail.
  all: try contradiction.
  all: destruct Htail as [Heq | []].
  all: try (injection Heq as <- _;
            rewrite endpoint_chunk_complete in Hto; discriminate Hto).
  all: injection Heq as <- Hrc'; rewrite Hrc' in Hcomplete;
    cbn [complete_outcome] in Hcomplete; rewrite Hokr, Hjson in Hcomplete;
    try discriminate Hcomplete.
  all: injection Hcomplete as <-.
  2: { rewrite Hcb in Hsuccess. discriminate Hsuccess. }
  rewrite Hcb in Hsuccess. injection Hsuccess as <-.
  split.
  { match type of Hlog with
    | log = ?a :: ?b :: ?m ++ [?x; ?y; _; _] =>
        exists (a :: b :: m ++ [x; y])
    end.
    rewrite Hlog. cbn [app]. rewrite <- app_assoc. reflexivity. }
  split; [rewrite Hlog, shaped_successes_reported; reflexivity |].
  split; [rewrite Hlog, shaped_errors_reported; reflexivity |].
  destruct (onError log _) as [e' |] eqn:Ecb.
  - exists e'. split; [exact Hc | discriminate].
  - eexists. split; [exact Hc | reflexivity].
Qed.

(** X15.  An ok init response whose body cannot be parsed, or parses to
    [null], ends the upload before the first chunk: the exception (the
    rejection of [json()], or the TypeError of the destructuring) is passed
    to the error callback and thrown, and the init request is the only
    request sent. *)
Theorem unusable_init_body_sends_no_chunk (r : Response) :
  fetch [EvFetch (init_request url file headers metadata (List.length chunks))]
    (init_request url file headers metadata (List.length chunks))
  = inr r ->
  ok r = true ->
  (forall e, json r = inl e ->
     sent_requests log
     = [init_request url file headers metadata (List.length chunks)] /\
     errors_reported log = [e] /\
     exists e', c = Abrupt e' /\ (onError log e = None -> e' = e)) /\
  (json r = inr VNull ->
     sent_requests log
     = [init_request url file headers metadata (List.length chunks)] /\
     exists msg,
       errors_reported log = [ErrorObject "TypeError" msg] /\
       exists e', c = Abrupt e' /\
                  (onError log (ErrorObject "TypeError" msg) = None ->
                   e' = ErrorObject "TypeError" msg)).
Proof.
  intros Hres Hokr.
  assert (Hcase : forall e,
             init_outcome (inr r) = inl e ->
             sent_requests log
             = [init_request url file headers metadata (List.length chunks)] /\
             errors_reported log = [e] /\
             exists e', c = Abrupt e' /\ (onError log e = None -> e' = e)).
  { intros e Hout. rewrite <- Hres in Hout.
    destruct (run_init_failed e Hout) as [Hlog Hc].
    split; [rewrite Hlog; reflexivity |].
    split; [rewrite Hlog; reflexivity |].
    destruct (onError log e) as [e' |] eqn:Ecb.
    - exists e'. split; [exact Hc | discriminate].
    - exists e. split; [exact Hc | reflexivity]. }
  split.
  - intros e Hjson. apply Hcase. cbn. now rewrite Hokr, Hjson.
  - intro Hjson.
    destruct (Hcase (ErrorObject "TypeError" "Cannot destructure property"))
      as (Hsent & Herr & Hthrown).
    { cbn. now rewrite Hokr, Hjson. }
    split; [exact Hsent |]. eexists. split; [exact Herr | exact Hthrown].
Qed.

(** X16.  The upload id is taken from the [uploadId] property of the init
    response body and used as it is: every later request of the run is a
    chunk request or the complete request carrying that value.  When the
    body has no such property the value is [undefined], and the chunk
    requests carry the text "undefined". *)
Theorem upload_id_propagates (r : Response) (body id : Value) :
  fetch [EvFetch (init_request url file headers metadata (List.length chunks))]
    (init_request url file headers metadata (List.length chunks))
  = inr r ->
  ok r = true -> json r = inr body ->
  destructure "uploadId" body = inr id ->
  (forall req, In req (sent_requests log) ->
     req = init_request url file headers metadata (List.length chunks) \/
     (exists i, (i < List.length chunks)%nat /\
                req = chunk_request url headers chunks id i) \/
     req = complete_request url headers id) /\
  (forall props,
     body = VObject props -> lookup_prop "uploadId" props = None ->
     id = VUndefined /\
     forall req, In req (chunk_requests url log) ->
       exists i, lookup_prop "uploadId" (chunk_form chunks id i)
                 = Some (FormText "undefined") /\
                 req_body req = FormBody (chunk_form chunks id i)).
Proof.
  intros Hres Hokr Hjson Hid.
  destruct run_sent_requests as (uid & k & rest & Hsent & Hk & Hrest & Hinit).
  assert (Huid : uid = id \/ k = 0%nat /\ rest = []).
  { destruct Hinit as [Hinit | Hfail]; [left | now right].
    rewrite Hres in Hinit. cbn in Hinit. rewrite Hokr, Hjson in Hinit.
    congruence. }
  assert (Hall : forall req, In req (sent_requests log) ->
            req = init_request url file headers metadata (List.length chunks) \/
            (exists i, (i < List.length chunks)%nat /\
                       req = chunk_request url headers chunks id i) \/
            req = complete_request url headers id).
  { intros req Hin. rewrite Hsent in Hin.
    destruct Hin as [<- | Hin]; [now left |].
    destruct Huid as [-> | [-> ->]]; [| cbn in Hin; contradiction].
    apply in_app_or in Hin. destruct Hin as [Hin | Hin].
    - apply in_map_iff in Hin. destruct Hin as (i & <- & Hi).
      apply in_seq in Hi. right; left. exists i. split; [lia | reflexivity].
    - destruct Hrest as [-> | [[Hlt ->] | [_ ->]]].
      + contradiction.
      + destruct Hin as [<- | []]. right; left. now exists k.
      + destruct Hin as [<- | []]. now right; right. }
  split; [exact Hall |].
  intros props -> Hnone. cbn in Hid. rewrite Hnone in Hid.
  injection Hid as <-. split; [reflexivity |].
  intros req Hin. unfold chunk_requests in Hin.
  apply filter_In in Hin. destruct Hin as [Hin Hto].
  destruct (Hall req Hin) as [-> | [(i & _ & ->) | ->]].
  - rewrite endpoint_init_chunk in Hto. discriminate Hto.
  - exists i. split; reflexivity.
  - rewrite endpoint_complete_chunk in Hto. discriminate Hto.
Qed.

(** X17.  Every chunk request of a run carries, for some index [i], the
    bytes [i * C, min ((i + 1) * C) S) of the file as [chunk], the index
    [i] in decimal as [chunkIndex], and as [uploadId] the text that
    ToString gives for the upload id that the body of the ok init response
    yielded (so that no chunk request is sent when that conversion
    throws). *)
Theorem chunk_request_payload (req : Request) :
  0 <= size file -> 0 < chunkSize ->
  In req (chunk_requests url log) ->
  exists r body uid text i,
    fetch [EvFetch (init_request url file headers metadata (List.length chunks))]
      (init_request url file headers metadata (List.length chunks))
    = inr r /\
    ok r = true /\ json r = inr body /\
    destructure "uploadId" body = inr uid /\
    to_string uid = inr text /\
    Z.of_nat i * chunkSize < size file /\
    req_body req
    = FormBody
        [("chunk"%string,
          FormBlob (mkBlob (Z.of_nat i * chunkSize)
                      (Z.min ((Z.of_nat i + 1) * chunkSize) (size file))));
         ("chunkIndex"%string, FormText (string_of_nat i));
         ("uploadId"%string, FormText text)].
Proof.
  intros HS HC Hin.
  pose proof (createFileChunks_result file chunkSize fuel chunks HS HC Hchunks)
    as Hexp.
  destruct run_sent_requests as (uid & k & rest & Hsent & Hk & Hrest & Hinit).
  unfold chunk_requests in Hin. apply filter_In in Hin.
  destruct Hin as [Hin Hto].
  assert (Hreq : exists i, (i < List.length chunks)%nat /\
                           req = chunk_request url headers chunks uid i).
  { rewrite Hsent in Hin. destruct Hin as [<- | Hin].
    - rewrite endpoint_init_chunk in Hto. discriminate Hto.
    - apply in_app_or in Hin. destruct Hin as [Hin | Hin].
      + apply in_map_iff in Hin. destruct Hin as (i & <- & Hi).
        apply in_seq in Hi. exists i. split; [lia | reflexivity].
      + destruct Hrest as [-> | [[Hlt ->] | [_ ->]]].
        * contradiction.
        * destruct Hin as [<- | []]. now exists k.
        * destruct Hin as [<- | []].
          rewrite endpoint_complete_chunk in Hto. discriminate Hto. }
  assert (Hid : init_outcome
                  (fetch [EvFetch (init_request url file headers metadata
                                     (List.length chunks))]
                     (init_request url file headers metadata (List.length chunks)))
                = inr uid).
  { destruct Hinit as [Hinit | [Hk0 Hrest0]]; [exact Hinit |].
    subst k rest. rewrite Hsent in Hin. cbn [seq map app] in Hin.
    destruct Hin as [<- | []].
    rewrite endpoint_init_chunk in Hto. discriminate Hto. }
  destruct Hreq as (i & Hi & ->).
  assert (Htext : exists text, to_string uid = inr text).
  { destruct (to_string uid) as [e | text] eqn:Etext; [| now exists text].
    exfalso.
    assert (Hne : chunks <> []) by (intros ->; cbn in Hi; lia).
    pose proof Hrun as H. unfold uploadFileInChunks in H.
    rewrite Hchunks in H. injection H as H. unfold try_catch in H.
    rewrite (upload_try_unconvertible fetch url file headers metadata
               onProgress onSuccess chunks uid e Hid Etext Hne) in H.
    unfold upload_catch, bind, call, throw in H.
    destruct (onError _ _); injection H as _ <-;
      cbn [app sent_requests In] in Hin;
      destruct Hin as [Heq | []];
      rewrite <- Heq, endpoint_init_chunk in Hto; discriminate Hto. }
  destruct Htext as [text Htext].
  apply init_outcome_success in Hid.
  destruct Hid as (r & body & Hres & Hokr & Hjson & Hdes).
  assert (Hn : (i < Z.to_nat (ceil_div (size file) chunkSize))%nat).
  { rewrite Hexp in Hi. now rewrite (expected_length file chunkSize) in Hi. }
  assert (Hnth : nth_error chunks i = Some (nth_range (size file) chunkSize i)).
  { rewrite Hexp. unfold expected_chunks.
    rewrite nth_error_map, nth_error_seq.
    destruct (i <? Z.to_nat (ceil_div (size file) chunkSize))%nat eqn:E;
      [reflexivity | apply Nat.ltb_ge in E; lia]. }
  exists r, body, uid, text, i.
  split; [exact Hres |]. split; [exact Hokr |]. split; [exact Hjson |].
  split; [exact Hdes |]. split; [exact Htext |].
  split; [now apply (index_lt_count file chunkSize HC HS) |].
  cbn [req_body chunk_request]. unfold chunk_form, form_text.
  rewrite Hnth, Htext. reflexivity.
Qed.

(** X19.  When the init response yields an upload id that cannot be
    converted to a string and there is at least one chunk, [append] throws
    in the first iteration of the loop: the init request is the only request
    of the run, and the TypeError of the conversion is passed to the error
    callback and thrown. *)
Theorem unconvertible_upload_id_sends_no_chunk (uid : Value) (e : Exn) :
  init_outcome
    (fetch [EvFetch (init_request url file headers metadata (List.length chunks))]
       (init_request url file headers metadata (List.length chunks)))
  = inr uid ->
  to_string uid = inl e -> chunks <> [] ->
  sent_requests log
  = [init_request url file headers metadata (List.length chunks)] /\
  progress_reports log = [] /\
  successes_reported log = [] /\
  errors_reported log = [e] /\
  exists e', c = Abrupt e' /\ (onError log e = None -> e' = e).
Proof.
  intros Hid Htext Hne.
  pose proof Hrun as H. unfold uploadFileInChunks in H.
  rewrite Hchunks in H. injection H as H. unfold try_catch in H.
  rewrite (upload_try_unconvertible fetch url file headers metadata
             onProgress onSuccess chunks uid e Hid Htext Hne) in H.
  unfold upload_catch, bind, call, throw in H. cbn [app] in H.
  destruct (onError _ e) as [e' |] eqn:Ecb; injection H as Hc Hlog;
    subst log; cbn [sent_requests progress_reports successes_reported
                    errors_reported].
  - repeat split. exists e'. split; [now symmetry |].
    rewrite Ecb. discriminate.
  - repeat split. exists e. split; [now symmetry | reflexivity].
Qed.

End MoreUploadProperties.

(** X7.  With a chunk size that is not positive and a non-empty file, the
    function never gets past its call of [createFileChunks], whose loop does
    not end (the model puts no bound on the length of the array): the run
    has no result, whatever the fuel, so no request is sent and no callback
    is called. *)
Theorem nonpositive_chunk_size_hangs (fetch : Network) (fuel : nat)
  (url : string) (file : File) (headers : Headers) (metadata : Value)
  (onProgress : Callback ProgressRecord) (onError : Callback Exn)
  (onSuccess : Callback Value) (chunkSize : Z) :
  chunkSize <= 0 -> 0 < size file ->
  uploadFileInChunks fetch fuel url file headers metadata
    onProgress onError onSuccess chunkSize = None.
Proof.
  intros HC HS. unfold uploadFileInChunks, createFileChunks.
  now rewrite chunk_loop_diverges.
Qed.

Lemma nonpositive_chunk_size_hangs_witness :
  uploadFileInChunks always_ok 1000 sample_url sample_file sample_headers
    (VObject []) noop noop noop 0 = None.
Proof.
  apply nonpositive_chunk_size_hangs.
  - discriminate.
  - reflexivity.
Defined.

(** X8.  With a chunk size [C > 0] the function always settles, and it
    sends at most [ceil(S / C) + 2] requests: first the init request, which
    declares the size [S] and [ceil(S / C)] chunks, then at most
    [ceil(S / C) + 1] others. *)
Theorem upload_settles_within_bound (fetch : Network) (fuel : nat)
  (url : string) (file : File) (headers : Headers) (metadata : Value)
  (onProgress : Callback ProgressRecord) (onError : Callback Exn)
  (onSuccess : Callback Value) (chunkSize : Z) :
  0 <= size file -> 0 < chunkSize ->
  (Z.to_nat (ceil_div (size file) chunkSize) < fuel)%nat ->
  exists c log rest,
    uploadFileInChunks fetch fuel url file headers metadata
      onProgress onError onSuccess chunkSize = Some (c, log) /\
    sent_requests log
    = init_request url file headers metadata
        (Z.to_nat (ceil_div (size file) chunkSize)) :: rest /\
    (List.length rest <= Z.to_nat (ceil_div (size file) chunkSize) + 1)%nat.
Proof.
  intros HS HC Hfuel.
  pose proof (createFileChunks_expected file chunkSize HC HS fuel Hfuel)
    as Hchunks.
  assert (Hrun : exists c log,
             uploadFileInChunks fetch fuel url file headers metadata
               onProgress onError onSuccess chunkSize = Some (c, log)).
  { unfold uploadFileInChunks. rewrite Hchunks.
    destruct (try_catch _ _ _) as [c log]. now exists c, log. }
  destruct Hrun as (c & log & Hrun).
  destruct (run_sent_requests fetch fuel url file headers metadata onProgress
              onError onSuccess chunkSize _ Hchunks c log Hrun)
    as (uid & k & rest & Hsent & Hk & Hrest & _).
  rewrite (expected_length file chunkSize) in Hsent, Hk.
  exists c, log. eexists. split; [exact Hrun |]. split; [exact Hsent |].
  rewrite length_app, length_map, length_seq.
  destruct Hrest as [-> | [[_ ->] | [_ ->]]]; cbn [List.length]; lia.
Qed.

Lemma upload_settles_within_bound_witness :
  exists c log rest,
    sample_upload_with (rejecting_request 3) throwing throwing throwing
    = Some (c, log) /\
    sent_requests log
    = init_request sample_url sample_file sample_headers (VObject [])
        (Z.to_nat (ceil_div (size sample_file) DEFAULT_CHUNK_SIZE)) :: rest /\
    (List.length rest
     <= Z.to_nat (ceil_div (size sample_file) DEFAULT_CHUNK_SIZE) + 1)%nat.
Proof.
  apply upload_settles_within_bound.
  - vm_compute. discriminate.
  - reflexivity.
  - vm_compute. lia.
Defined.

(** The [try] block when the progress callback throws and there is at least
    one chunk: the loop ends in its first iteration. *)
Lemma upload_try_throwing_progress (fetch : Network) (url : string)
  (file : File) (headers : Headers) (metadata : Value)
  (onProgress : Callback ProgressRecord) (onSuccess : Callback Value)
  (chunks : list Blob) (e : Exn) :
  (forall h p, onProgress h p = Some e) -> chunks <> [] ->
  let init := init_request url file headers metadata (List.length chunks) in
  let res0 := fetch [EvFetch init] init in
  upload_try fetch url file headers metadata onProgress onSuccess chunks []
  = match init_outcome res0 with
    | inl e0 => (Abrupt e0, [EvFetch init; EvSettled res0])
    | inr uid =>
        let req0 := chunk_request url headers chunks uid 0 in
        match to_string uid with
        | inl e1 => (Abrupt e1, [EvFetch init; EvSettled res0])
        | inr _ =>
            match fetch [EvFetch init; EvSettled res0; EvFetch req0] req0 with
            | inl e1 =>
                (Abrupt e1,
                 [EvFetch init; EvSettled res0; EvFetch req0; EvSettled (inl e1)])
            | inr r =>
                if ok r
                then (Abrupt e,
                      [EvFetch init; EvSettled res0; EvFetch req0;
                       EvSettled (inr r);
                       EvProgress (progress_record uid (List.length chunks) 1)])
                else (Abrupt (new_Error (chunk_error_message 0 (statusText r))),
                      [EvFetch init; EvSettled res0; EvFetch req0;
                       EvSettled (inr r)])
            end
        end
    end.
Proof.
  intros Hthrow Hne. cbn zeta. unfold upload_try.
  rewrite bind_run, await_fetch_run. cbn [app].
  destruct (fetch _ _) as [e0 | r0]; [reflexivity |].
  cbn [init_outcome]. destruct (ok r0); cbn [negb]; [| reflexivity].
  rewrite bind_run. destruct (json r0) as [e1 | body]; cbn [await]; [reflexivity |].
  rewrite bind_run.
  destruct (destructure "uploadId" body) as [e2 | uid]; cbn [await]; [reflexivity |].
  rewrite bind_run. unfold for_loop.
  destruct chunks as [| b0 rest]; [now destruct Hne |].
  cbn [List.length Nat.sub for_loop_from].
  change (0 <? S (List.length rest))%nat with true. cbn iota.
  rewrite bind_run. unfold upload_chunk at 1.
  rewrite bind_run.
  destruct (to_string uid) as [e3 | text]; cbn [await]; [reflexivity |].
  rewrite bind_run, await_fetch_run. cbn [app List.length].
  destruct (fetch _ _) as [e3 | r]; [reflexivity |].
  destruct (ok r); cbn [negb]; [| reflexivity].
  rewrite bind_run. unfold call. rewrite Hthrow. reflexivity.
Qed.

(** X14.  The progress callback runs inside the [try] block: if it throws,
    the upload stops after the first acknowledged chunk.  At most one chunk
    request is sent and at most one report made; once a report was made the
    callback's exception has been passed to the error callback and thrown;
    and with at least one chunk no complete request is sent. *)
Theorem throwing_progress_callback_stops_upload (fetch : Network) (fuel : nat)
  (url : string) (file : File) (headers : Headers) (metadata : Value)
  (onProgress : Callback ProgressRecord) (onError : Callback Exn)
  (onSuccess : Callback Value) (chunkSize : Z) (chunks : list Blob)
  (c : Completion Value) (log : Log) (e : Exn) :
  (forall h p, onProgress h p = Some e) ->
  createFileChunks fuel file chunkSize = Some chunks ->
  uploadFileInChunks fetch fuel url file headers metadata
    onProgress onError onSuccess chunkSize = Some (c, log) ->
  (List.length (chunk_requests url log) <= 1)%nat /\
  (List.length (progress_reports log) <= 1)%nat /\
  (forall p, In p (progress_reports log) ->
     uploadedChunks p = 1%nat /\
     errors_reported log = [e] /\
     exists e', c = Abrupt e' /\ (onError log e = None -> e' = e)) /\
  (chunks <> [] ->
   forall req, In req (sent_requests log) ->
     to_endpoint url "/complete" req = false).
Proof.
  intros Hthrow Hchunks Hrun.
  destruct chunks as [| b0 rest] eqn:Echunks.
  - destruct (run_log_shape fetch fuel url file headers metadata onProgress
                onError onSuccess chunkSize [] Hchunks c log Hrun)
      as (res0 & uid & acks & tail & Hlog & _ & Hlen & Hprog & _ & _
          & Htail & _).
    assert (acks = []) by (destruct acks; [reflexivity | cbn in Hlen; lia]).
    subst acks.
    assert (Hreports : progress_reports log = [])
      by (rewrite Hlog; cbn [acked_events app progress_reports]; exact Hprog).
    assert (Hreqs : chunk_requests url log = []).
    { rewrite Hlog, shaped_chunk_requests. cbn [List.length seq map app].
      destruct Htail as [-> | [Hlt _]]; [reflexivity | cbn in Hlt; lia]. }
    rewrite Hreports, Hreqs. cbn [List.length In].
    repeat split; try lia; try contradiction.
  - rewrite <- Echunks in *.
    assert (Hne : chunks <> []) by (rewrite Echunks; discriminate).
    unfold uploadFileInChunks in Hrun. rewrite Hchunks in Hrun.
    unfold try_catch in Hrun.
    rewrite (upload_try_throwing_progress fetch url file headers metadata
               onProgress onSuccess chunks e Hthrow Hne) in Hrun.
    cbn zeta in Hrun.
    destruct (init_outcome _) as [e0 | uid].
    2: destruct (to_string uid) as [e1 | text].
    3: destruct (fetch _ (chunk_request url headers chunks uid 0)) as [e1 | r].
    4: destruct (ok r).
    all: unfold upload_catch in Hrun; rewrite bind_run in Hrun;
      unfold call in Hrun; cbn [app] in Hrun.
    all: match type of Hrun with
         | context [match ?cb with Some _ => _ | None => _ end] =>
             destruct cb as [e' |] eqn:Ecb
         end.
    all: injection Hrun as Hc Hlog; subst log.
    all: unfold chunk_requests;
      cbn [sent_requests progress_reports errors_reported filter List.length In].
    all: rewrite ?endpoint_init_chunk, ?endpoint_chunk_chunk;
      cbn [filter List.length].
    all: split; [lia |]. all: split; [lia |].
    all: split;
      [ intros p Hp;
        first [ contradiction
              | destruct Hp as [<- | []];
                split; [reflexivity |]; split; [reflexivity |];
                eexists; split; [symmetry; exact Hc |];
                rewrite Ecb; first [discriminate | reflexivity] ]
      | intros _ req Hin;
        repeat (destruct Hin as [<- | Hin]); try contradiction;
        first [apply endpoint_init_complete | apply endpoint_chunk_complete] ].
Qed.

Lemma throwing_progress_callback_stops_upload_witness :
  (List.length
     (chunk_requests sample_url
        (log_of (sample_upload_with always_ok throwing noop noop))) <= 1)%nat /\
  (forall p,
     In p (progress_reports
             (log_of (sample_upload_with always_ok throwing noop noop))) ->
     uploadedChunks p = 1%nat /\
     errors_reported (log_of (sample_upload_with always_ok throwing noop noop))
     = [callback_error] /\
     exists e',
       completion_of (sample_upload_with always_ok throwing noop noop)
       = Abrupt e' /\
       (noop (log_of (sample_upload_with always_ok throwing noop noop))
          callback_error = None ->
        e' = callback_error)).
Proof.
  destruct (throwing_progress_callback_stops_upload always_ok 4 sample_url
              sample_file sample_headers (VObject []) throwing noop noop
              DEFAULT_CHUNK_SIZE (expected_chunks 2621440 1048576)
              (completion_of (sample_upload_with always_ok throwing noop noop))
              (log_of (sample_upload_with always_ok throwing noop noop))
              callback_error)
    as (H1 & _ & H3 & _).
  - intros h p. reflexivity.
  - vm_compute. reflexivity.
  - vm_compute. reflexivity.
  - split; [exact H1 | exact H3].
Defined.

(** * Further properties of abortChunkedUpload *)

(** X18.  [abortChunkedUpload] sends exactly one request, whatever the
    outcome (a failed abort is not tried again): a POST to the abort
    endpoint that forwards the caller's headers with Content-Type set to
    application/json. *)
Theorem abort_sends_one_request (fetch : Network) (url : string)
  (uploadId : Value) (headers : Headers) (log0 : Log) :
  let req := abort_request url headers uploadId in
  sent_requests (snd (abortChunkedUpload fetch url uploadId headers log0))
  = sent_requests log0 ++ [req] /\
  req_method req = "POST"%string /\
  to_endpoint url "/abort" req = true /\
  lookup_prop "Content-Type" (req_headers req) = Some "application/json"%string /\
  (forall k, k <> "Content-Type"%string ->
     lookup_prop k (req_headers req) = lookup_prop k headers).
Proof.
  cbn zeta. split; [| split; [reflexivity | split; [apply String.eqb_refl | split]]].
  - unfold abortChunkedUpload, try_catch.
    rewrite bind_run, await_fetch_run.
    destruct (fetch _ _) as [e | r].
    + unfold bind, console_error, throw. cbn [snd].
      rewrite !sent_requests_app. cbn [sent_requests]. now rewrite !app_nil_r.
    + destruct (ok r); cbn [negb].
      * destruct (json r) as [e | v]; cbn [await];
          unfold bind, console_error, throw; cbn [snd];
          rewrite !sent_requests_app; cbn [sent_requests];
          now rewrite ?app_nil_r.
      * unfold throw, bind, console_error. cbn [snd].
        rewrite !sent_requests_app. cbn [sent_requests]. now rewrite !app_nil_r.
  - cbn [req_headers abort_request]. apply lookup_set_same.
  - intros k Hk. cbn [req_headers abort_request]. now apply lookup_set_other.
Qed.

(** * The properties above on sample runs *)

Lemma sample_upload_with_finishes (fetch : Network)
  (onProgress : Callback ProgressRecord) (onError : Callback Exn)
  (onSuccess : Callback Value) :
  sample_upload_with fetch onProgress onError onSuccess
  = Some (completion_of (sample_upload_with fetch onProgress onError onSuccess),
          log_of (sample_upload_with fetch onProgress onError onSuccess)).
Proof.
  unfold completion_of, log_of.
  destruct (sample_upload_with fetch onProgress onError onSuccess)
    as [[c log] |] eqn:E; [reflexivity |].
  unfold sample_upload_with, uploadFileInChunks in E.
  rewrite sample_chunks_run in E. discriminate E.
Qed.

Lemma empty_file_upload_witness :
  chunk_requests sample_url (log_of empty_upload) = [] /\
  progress_reports (log_of empty_upload) = [] /\
  sent_requests (log_of empty_upload)
  = [init_request sample_url empty_file sample_headers (VObject []) 0;
     complete_request sample_url sample_headers (VString "upload-1")].
Proof.
  destruct (empty_file_upload always_ok 1 sample_url empty_file sample_headers
              (VObject []) noop noop noop DEFAULT_CHUNK_SIZE []
              eq_refl (completion_of empty_upload) (log_of empty_upload))
    as (_ & H1 & H2 & _ & H4).
  - vm_compute. reflexivity.
  - reflexivity.
  - split; [exact H1 |]. split; [exact H2 |].
    apply (H4 (VString "upload-1")). reflexivity.
Defined.

Lemma requests_forward_headers_witness :
  req_method
    (chunk_request sample_url sample_headers (expected_chunks 2621440 1048576)
       (VString "upload-1") 0) = "POST"%string /\
  (to_endpoint sample_url "/chunk"
     (chunk_request sample_url sample_headers (expected_chunks 2621440 1048576)
        (VString "upload-1") 0) = true ->
   req_headers
     (chunk_request sample_url sample_headers (expected_chunks 2621440 1048576)
        (VString "upload-1") 0) = sample_headers).
Proof.
  destruct (requests_forward_headers always_ok 4 sample_url sample_file
              sample_headers (VObject []) noop noop noop DEFAULT_CHUNK_SIZE
              (expected_chunks 2621440 1048576) sample_chunks_run
              (completion_of (sample_upload always_ok))
              (log_of (sample_upload always_ok))
              (sample_upload_run always_ok (sample_upload_finishes always_ok))
              (chunk_request sample_url sample_headers
                 (expected_chunks 2621440 1048576) (VString "upload-1") 0))
    as (H1 & _ & H3 & _).
  - vm_compute. right; left. reflexivity.
  - split; [exact H1 | exact H3].
Defined.

Lemma failure_reported_once_witness :
  exists e0 pre,
    log_of (sample_upload offline) = pre ++ [EvError e0] /\
    errors_reported (log_of (sample_upload offline)) = [e0].
Proof.
  destruct (failure_reported_once offline 4 sample_url sample_file
              sample_headers (VObject []) noop noop noop DEFAULT_CHUNK_SIZE
              (expected_chunks 2621440 1048576) sample_chunks_run
              (completion_of (sample_upload offline))
              (log_of (sample_upload offline))
              (sample_upload_run offline (sample_upload_finishes offline))
              (ErrorObject "TypeError" "Failed to fetch"))
    as (e0 & pre & H1 & H2 & _).
  - vm_compute. reflexivity.
  - exists e0, pre. split; [exact H1 | exact H2].
Defined.

Lemma chunk_transport_failure_stops_upload_witness :
  errors_reported
    (log_of (sample_upload_with (dropping_request 3) noop noop noop))
  = [ErrorObject "TypeError" "Failed to fetch"] /\
  (forall req',
     In req' (sent_requests
                (log_of (sample_upload_with (dropping_request 3) noop noop noop))) ->
     to_endpoint sample_url "/complete" req' = false).
Proof.
  destruct (chunk_transport_failure_stops_upload (dropping_request 3) 4
              sample_url sample_file sample_headers (VObject []) noop noop noop
              DEFAULT_CHUNK_SIZE
              (expected_chunks 2621440 1048576) sample_chunks_run
              (completion_of (sample_upload_with (dropping_request 3) noop noop noop))
              (log_of (sample_upload_with (dropping_request 3) noop noop noop))
              (sample_upload_with_finishes (dropping_request 3) noop noop noop)
              (chunk_request sample_url sample_headers
                 (expected_chunks 2621440 1048576) (VString "upload-1") 1)
              (ErrorObject "TypeError" "Failed to fetch"))
    as (_ & H2 & _ & _ & H5).
  - vm_compute. right; right; left. reflexivity.
  - reflexivity.
  - split; [exact H2 | exact H5].
Defined.

Lemma complete_failure_reported_witness :
  errors_reported
    (log_of (sample_upload_with (rejecting_request 5) noop noop noop))
  = [new_Error (complete_error_message "Internal Server Error")] /\
  successes_reported
    (log_of (sample_upload_with (rejecting_request 5) noop noop noop)) = [].
Proof.
  destruct (complete_failure_reported (rejecting_request 5) 4
              sample_url sample_file sample_headers (VObject []) noop noop noop
              DEFAULT_CHUNK_SIZE
              (expected_chunks 2621440 1048576) sample_chunks_run
              (completion_of (sample_upload_with (rejecting_request 5) noop noop noop))
              (log_of (sample_upload_with (rejecting_request 5) noop noop noop))
              (sample_upload_with_finishes (rejecting_request 5) noop noop noop)
              (complete_request sample_url sample_headers (VString "upload-1"))
              error_response)
    as (_ & H2 & H3 & _).
  - vm_compute. do 4 right. left. reflexivity.
  - reflexivity.
  - reflexivity.
  - split; [exact H2 | exact H3].
Defined.

Lemma throwing_success_callback_reported_witness :
  successes_reported
    (log_of (sample_upload_with always_ok noop noop throwing))
  = [VObject [("uploadId"%string, VString "upload-1")]] /\
  errors_reported
    (log_of (sample_upload_with always_ok noop noop throwing))
  = [callback_error].
Proof.
  destruct (throwing_success_callback_reported always_ok 4
              sample_url sample_file sample_headers (VObject []) noop noop
              throwing DEFAULT_CHUNK_SIZE
              (expected_chunks 2621440 1048576) sample_chunks_run
              (completion_of (sample_upload_with always_ok noop noop throwing))
              (log_of (sample_upload_with always_ok noop noop throwing))
              (sample_upload_with_finishes always_ok noop noop throwing)
              (complete_request sample_url sample_headers (VString "upload-1"))
              ok_response
              (VObject [("uploadId"%string, VString "upload-1")])
              callback_error)
    as (_ & H2 & H3 & _).
  - vm_compute. do 4 right. left. reflexivity.
  - reflexivity.
  - reflexivity.
  - reflexivity.
  - intro h. reflexivity.
  - split; [exact H2 | exact H3].
Defined.

Lemma unusable_init_body_sends_no_chunk_witness :
  sent_requests
    (log_of (sample_upload_with (answering_init_with (inr VNull)) noop noop noop))
  = [init_request sample_url sample_file sample_headers (VObject []) 3] /\
  exists msg,
    errors_reported
      (log_of (sample_upload_with (answering_init_with (inr VNull))
                 noop noop noop))
    = [ErrorObject "TypeError" msg].
Proof.
  destruct (unusable_init_body_sends_no_chunk (answering_init_with (inr VNull)) 4
              sample_url sample_file sample_headers (VObject []) noop noop noop
              DEFAULT_CHUNK_SIZE
              (expected_chunks 2621440 1048576) sample_chunks_run
              (completion_of (sample_upload_with (answering_init_with (inr VNull))
                                noop noop noop))
              (log_of (sample_upload_with (answering_init_with (inr VNull))
                         noop noop noop))
              (sample_upload_with_finishes (answering_init_with (inr VNull))
                 noop noop noop)
              (mkResponse true "OK" (inr VNull)))
    as (_ & H2).
  - reflexivity.
  - reflexivity.
  - destruct (H2 eq_refl) as (Hsent & msg & Herr & _).
    split; [exact Hsent | exists msg; exact Herr].
Defined.

Lemma upload_id_propagates_witness :
  (forall req,
     In req (sent_requests
               (log_of (sample_upload_with
                          (answering_init_with (inr (VObject [])))
                          noop noop noop))) ->
     req = init_request sample_url sample_file sample_headers (VObject [])
             (List.length (expected_chunks 2621440 1048576)) \/
     (exists i, (i < List.length (expected_chunks 2621440 1048576))%nat /\
                req = chunk_request sample_url sample_headers
                        (expected_chunks 2621440 1048576) VUndefined i) \/
     req = complete_request sample_url sample_headers VUndefined) /\
  (forall req,
     In req (chunk_requests sample_url
               (log_of (sample_upload_with
                          (answering_init_with (inr (VObject [])))
                          noop noop noop))) ->
     exists i,
       lookup_prop "uploadId"
         (chunk_form (expected_chunks 2621440 1048576) VUndefined i)
       = Some (FormText "undefined") /\
       req_body req
       = FormBody (chunk_form (expected_chunks 2621440 1048576) VUndefined i)).
Proof.
  destruct (upload_id_propagates (answering_init_with (inr (VObject []))) 4
              sample_url sample_file sample_headers (VObject []) noop noop noop
              DEFAULT_CHUNK_SIZE
              (expected_chunks 2621440 1048576) sample_chunks_run
              (completion_of (sample_upload_with
                                (answering_init_with (inr (VObject [])))
                                noop noop noop))
              (log_of (sample_upload_with
                         (answering_init_with (inr (VObject [])))
                         noop noop noop))
              (sample_upload_with_finishes
                 (answering_init_with (inr (VObject []))) noop noop noop)
              (mkResponse true "OK" (inr (VObject [])))
              (VObject []) VUndefined)
    as (H1 & H2).
  - reflexivity.
  - reflexivity.
  - reflexivity.
  - reflexivity.
  - split; [exact H1 |].
    exact (proj2 (H2 [] eq_refl eq_refl)).
Defined.

Lemma chunk_request_payload_witness :
  exists r body uid text i,
    answering_init_with (inr numeric_id_body)
      [EvFetch (init_request sample_url sample_file sample_headers (VObject [])
                  (List.length (expected_chunks 2621440 1048576)))]
      (init_request sample_url sample_file sample_headers (VObject [])
         (List.length (expected_chunks 2621440 1048576)))
    = inr r /\
    ok r = true /\ json r = inr body /\
    destructure "uploadId" body = inr uid /\
    to_string uid = inr text /\
    Z.of_nat i * DEFAULT_CHUNK_SIZE < size sample_file /\
    req_body
      (chunk_request sample_url sample_headers
         (expected_chunks 2621440 1048576) (VNumber (Number_of_Z 42)) 2)
    = FormBody
        [("chunk"%string,
          FormBlob (mkBlob (Z.of_nat i * DEFAULT_CHUNK_SIZE)
                      (Z.min ((Z.of_nat i + 1) * DEFAULT_CHUNK_SIZE)
                         (size sample_file))));
         ("chunkIndex"%string, FormText (string_of_nat i));
         ("uploadId"%string, FormText text)].
Proof.
  apply (chunk_request_payload (answering_init_with (inr numeric_id_body)) 4
           sample_url sample_file sample_headers (VObject []) noop noop noop
           DEFAULT_CHUNK_SIZE
           (expected_chunks 2621440 1048576) sample_chunks_run
           (completion_of (sample_upload_with
                             (answering_init_with (inr numeric_id_body))
                             noop noop noop))
           (log_of (sample_upload_with
                      (answering_init_with (inr numeric_id_body))
                      noop noop noop))
           (sample_upload_with_finishes
              (answering_init_with (inr numeric_id_body)) noop noop noop)).
  - vm_compute. discriminate.
  - reflexivity.
  - vm_compute. do 2 right. left. reflexivity.
Defined.

Lemma unconvertible_upload_id_sends_no_chunk_witness :
  sent_requests
    (log_of (sample_upload_with (answering_init_with (inr unconvertible_id_body))
               noop noop noop))
  = [init_request sample_url sample_file sample_headers (VObject [])
       (List.length (expected_chunks 2621440 1048576))] /\
  errors_reported
    (log_of (sample_upload_with (answering_init_with (inr unconvertible_id_body))
               noop noop noop))
  = [ErrorObject "TypeError" "Cannot convert object to primitive value"].
Proof.
  destruct (unconvertible_upload_id_sends_no_chunk
              (answering_init_with (inr unconvertible_id_body)) 4
              sample_url sample_file sample_headers (VObject []) noop noop noop
              DEFAULT_CHUNK_SIZE
              (expected_chunks 2621440 1048576) sample_chunks_run
              (completion_of (sample_upload_with
                                (answering_init_with (inr unconvertible_id_body))
                                noop noop noop))
              (log_of (sample_upload_with
                         (answering_init_with (inr unconvertible_id_body))
                         noop noop noop))
              (sample_upload_with_finishes
                 (answering_init_with (inr unconvertible_id_body)) noop noop noop)
              unconvertible_id
              (ErrorObject "TypeError" "Cannot convert object to primitive value"))
    as (H1 & _ & _ & H4 & _).
  - reflexivity.
  - reflexivity.
  - vm_compute. discriminate.
  - split; [exact H1 | exact H4].
Defined.

(** * ToString on sample values *)

Example to_string_integer :
  to_string (VNumber (Number_of_Z 42)) = inr "42"%string /\
  to_string (VNumber (Number_of_Z (-1048576))) = inr "-1048576"%string.
Proof. vm_compute. split; reflexivity. Qed.

(** From 10^21 on the exponent notation is used. *)
Example to_string_exponent :
  to_string (VNumber (Number_of_Z (10 ^ 20)))
  = inr "100000000000000000000"%string /\
  to_string (VNumber (Number_of_Z (10 ^ 21))) = inr "1e+21"%string /\
  to_string (VNumber (Number_of_Z 1234567890123456789012345))
  = inr "1.2345678901234568e+24"%string.
Proof. vm_compute. repeat split. Qed.

(** Above 2^53 the digits are the shortest that give the Number back, not
    those of its exact value. *)
Example to_string_shortest :
  to_string (VNumber (Number_of_Z (2 ^ 60))) = inr "1152921504606847000"%string.
Proof. vm_compute. reflexivity. Qed.

(** 0.1, 1.5, 1e-7 and the smallest positive Number. *)
Example to_string_fraction :
  to_string (VNumber (S754_finite false 7205759403792794 (-56)))
  = inr "0.1"%string /\
  to_string (VNumber (S754_finite false 3 (-1))) = inr "1.5"%string /\
  to_string (VNumber (S754_finite false 7555786372591432 (-76)))
  = inr "1e-7"%string /\
  to_string (VNumber (S754_finite false 1 (-1074))) = inr "5e-324"%string.
Proof. vm_compute. repeat split. Qed.

Example to_string_special :
  to_string (VNumber S754_nan) = inr "NaN"%string /\
  to_string (VNumber (S754_zero true)) = inr "0"%string /\
  to_string (VNumber (S754_infinity true)) = inr "-Infinity"%string.
Proof. repeat split. Qed.

Example to_string_array :
  to_string (VArray [VNumber (Number_of_Z 1); VNull; VString "a";
                     VArray [VBool true; VUndefined]; VObject []])
  = inr "1,,a,true,,[object Object]"%string.
Proof. vm_compute. reflexivity. Qed.

(** An object parsed from [{"toString": 1}] cannot be converted, nor can an
    array that holds it. *)
Example to_string_throws :
  to_string (VObject [("toString"%string, VNumber (Number_of_Z 1))])
  = inl (ErrorObject "TypeError" "Cannot convert object to primitive value") /\
  to_string (VArray [VString "a";
                     VObject [("toString"%string, VNull)]])
  = inl (ErrorObject "TypeError" "Cannot convert object to primitive value").
Proof. split; reflexivity. Qed.
